(** * Universal Reranker: cache, normalisation and orchestration

    A shallow embedding of [nodes/shared/rerank.helpers.ts] (the cached
    adapters, with and without prompt templates), of the [execute]
    method of [UniversalRerankerFlow.node.ts] and of the [rerank] method
    of the provider node, together with the properties of the result
    cache, the result processor and the orchestration layer.

    Conventions of the embedding
    - JavaScript strings are [string]s whose characters are the code
      units below 256; [charCodeAt] is the code of the character.
    - The objects a document is made of live in a [heap] of cells and are
      referred to by address ([VRef]), so that shared and self-referential
      documents can be written down.  Numbers inside documents are
      integers; relevance scores and thresholds are rationals (every
      finite double is one, and only their order is ever used).
    - The module-level [rerankCache] (a [Map]) is an association list in
      insertion order, threaded through the calls in a [world] together
      with the clock read by [Date.now()] and a log of the effects
      performed. *)

From Stdlib Require Import ZArith QArith List String Ascii Bool Lia.
From Stdlib Require Import Sorted Permutation DecimalString Lqa.
Import ListNotations.
Local Open Scope string_scope.
Local Open Scope Z_scope.

Set Implicit Arguments.

(** ** Exceptions and results *)

Inductive exn :=
| TypeError (msg : string)
| NodeOperationError (msg : string)
| NodeApiError (msg : string) (description : string)
| HttpError (status : option Z) (body : option string) (msg : string)
| CredentialError (msg : string).

Inductive result (A : Type) :=
| Ok (a : A)
| Throw (e : exn).
Arguments Ok {A} a.
Arguments Throw {A} e.

Definition rbind {A B} (r : result A) (k : A -> result B) : result B :=
  match r with
  | Ok a => k a
  | Throw e => Throw e
  end.

Fixpoint rmap {A B} (f : A -> result B) (l : list A) : result (list B) :=
  match l with
  | [] => Ok []
  | x :: t =>
      rbind (f x) (fun y => rbind (rmap f t) (fun ys => Ok (y :: ys)))
  end.

(** ** JavaScript values of documents *)

Inductive value :=
| VUndefined
| VNull
| VBool (b : bool)
| VNum (n : Z)
| VStr (s : string)
| VRef (a : nat).

(** A heap cell is a plain object (its own enumerable properties, in
    enumeration order) or an array. *)
Inductive cell :=
| CObj (props : list (string * value))
| CArr (elems : list value).

Definition heap := list cell.

(** [ToBoolean]. *)
Definition truthy (v : value) : bool :=
  match v with
  | VUndefined | VNull => false
  | VBool b => b
  | VNum n => negb (n =? 0)
  | VStr s => negb (String.eqb s EmptyString)
  | VRef _ => true
  end.

Fixpoint assoc {A} (k : string) (l : list (string * A)) : option A :=
  match l with
  | [] => None
  | (k', v) :: t => if String.eqb k k' then Some v else assoc k t
  end.

(** [d?.name] for a name that no prototype defines: [undefined] on
    [null], [undefined], primitives and arrays, the property on objects. *)
Definition getField (h : heap) (d : value) (name : string) : value :=
  match d with
  | VRef a =>
      match nth_error h a with
      | Some (CObj props) =>
          match assoc name props with
          | Some v => v
          | None => VUndefined
          end
      | _ => VUndefined
      end
  | _ => VUndefined
  end.

(** ** [JSON.stringify] *)

Definition hexDigit (n : Z) : string :=
  String.substring (Z.to_nat n) 1 "0123456789abcdef".

Definition charCode (c : ascii) : Z := Z.of_N (N_of_ascii c).

Definition dq : string := String (ascii_of_nat 34) EmptyString.

(** [QuoteJSONString], one code unit. *)
Definition quoteChar (c : ascii) : string :=
  let n := charCode c in
  if n =? 8 then "\b"
  else if n =? 9 then "\t"
  else if n =? 10 then "\n"
  else if n =? 12 then "\f"
  else if n =? 13 then "\r"
  else if n =? 34 then String "\" dq
  else if n =? 92 then "\\"
  else if n <? 32 then "\u00" ++ hexDigit (n / 16) ++ hexDigit (n mod 16)
  else String c EmptyString.

Fixpoint quoteBody (s : string) : string :=
  match s with
  | EmptyString => EmptyString
  | String c t => quoteChar c ++ quoteBody t
  end.

Definition quoteJSON (s : string) : string := dq ++ quoteBody s ++ dq.

(** [Number::toString] on an integer. *)
Definition numberToString (n : Z) : string :=
  NilZero.string_of_int (Z.to_int n).

Fixpoint join (sep : string) (l : list string) : string :=
  match l with
  | [] => EmptyString
  | [x] => x
  | x :: t => x ++ sep ++ join sep t
  end.

(** Members of an object: a property whose value serialises to
    [undefined] is left out. *)
Fixpoint serProps (go : value -> result (option string))
    (props : list (string * value)) : result (list string) :=
  match props with
  | [] => Ok []
  | (k, v) :: t =>
      rbind (go v) (fun o =>
      rbind (serProps go t) (fun rest =>
        match o with
        | Some s => Ok ((quoteJSON k ++ ":" ++ s) :: rest)
        | None => Ok rest
        end))
  end.

(** Elements of an array: [undefined] is written [null]. *)
Definition serElems (go : value -> result (option string))
    (elems : list value) : result (list string) :=
  rmap (fun v => rbind (go v) (fun o =>
                  Ok (match o with Some s => s | None => "null" end))) elems.

Definition cyclicError : exn :=
  TypeError "Converting circular structure to JSON".

(** Raised by the model only, when the recursion budget of
    [serialize] is used up; [JSON_stringify_total] shows that the budget
    handed out by [JSON_stringify] never is. *)
Definition budgetExhausted : exn := TypeError "<recursion budget>".

(** [SerializeJSONProperty]: [stack] holds the objects being serialised
    (the ancestors of [v]); meeting one of them again is the
    "circular structure" [TypeError]. *)
Fixpoint serialize (fuel : nat) (h : heap) (stack : list nat) (v : value)
  : result (option string) :=
  match v with
  | VUndefined => Ok None
  | VNull => Ok (Some "null")
  | VBool true => Ok (Some "true")
  | VBool false => Ok (Some "false")
  | VNum n => Ok (Some (numberToString n))
  | VStr s => Ok (Some (quoteJSON s))
  | VRef a =>
      match nth_error h a with
      | None => Ok None
      | Some c =>
          if existsb (Nat.eqb a) stack then Throw cyclicError
          else
            match fuel with
            | O => Throw budgetExhausted
            | S fuel' =>
                let go := serialize fuel' h (a :: stack) in
                match c with
                | CObj props =>
                    rbind (serProps go props) (fun ms =>
                      Ok (Some ("{" ++ join "," ms ++ "}")))
                | CArr elems =>
                    rbind (serElems go elems) (fun ms =>
                      Ok (Some ("[" ++ join "," ms ++ "]")))
                end
            end
      end
  end.

Definition JSON_stringify (h : heap) (v : value) : result (option string) :=
  serialize (List.length h) h [] v.

(** [JSON.stringify] of a freshly built array of values. *)
Definition JSON_stringify_array (h : heap) (vs : list value) : result string :=
  rbind (serElems (serialize (List.length h) h []) vs) (fun ms =>
    Ok ("[" ++ join "," ms ++ "]")).

(** ** Document text and cache key *)

(** [d?.pageContent || d?.text || d?.content || d?.document ||
    JSON.stringify(d)], the element function of both [documentTexts]
    maps.  The value is whatever the first truthy operand is; the last
    operand is a string, or [undefined] when [d] is [undefined]. *)
Definition documentText (h : heap) (d : value) : result value :=
  if truthy (getField h d "pageContent") then Ok (getField h d "pageContent")
  else if truthy (getField h d "text") then Ok (getField h d "text")
  else if truthy (getField h d "content") then Ok (getField h d "content")
  else if truthy (getField h d "document") then Ok (getField h d "document")
  else
    rbind (JSON_stringify h d) (fun o =>
      Ok (match o with Some s => VStr s | None => VUndefined end)).

Definition documentTexts (h : heap) (docs : list value) : result (list value) :=
  rmap (documentText h) docs.

(** [ToInt32]. *)
Definition toInt32 (z : Z) : Z :=
  let m := z mod 2 ^ 32 in
  if m <? 2 ^ 31 then m else m - 2 ^ 32.

Definition digit36 (n : Z) : string :=
  String.substring (Z.to_nat n) 1 "0123456789abcdefghijklmnopqrstuvwxyz".

Fixpoint toString36_aux (fuel : nat) (n : Z) (acc : string) : string :=
  match fuel with
  | O => acc
  | S fuel' =>
      if n <? 36 then digit36 n ++ acc
      else toString36_aux fuel' (n / 36) (digit36 (n mod 36) ++ acc)
  end.

(** [n.toString(36)] for a non-negative integer. *)
Definition toString36 (n : Z) : string :=
  toString36_aux (S (Z.to_nat (Z.log2 n))) n EmptyString.

(** One turn of the loop of [simpleHash]:
    [hash = ((hash << 5) - hash) + char; hash = hash & hash]. *)
Definition hashStep (hash : Z) (c : ascii) : Z :=
  let char := charCode c in
  let hash := (toInt32 (Z.shiftl (toInt32 hash) 5) - hash) + char in
  Z.land (toInt32 hash) (toInt32 hash).

Fixpoint hashLoop (hash : Z) (str : string) : Z :=
  match str with
  | EmptyString => hash
  | String c t => hashLoop (hashStep hash c) t
  end.

Definition simpleHash (str : string) : string :=
  toString36 (Z.abs (hashLoop 0 str)).

Definition createCacheKey (h : heap) (query : string) (docs : list value)
    (service model : string) : result string :=
  rbind (documentTexts h docs) (fun texts =>
  rbind (JSON_stringify_array h texts) (fun docsString =>
    let queryHash := simpleHash query in
    let docsHash := simpleHash docsString in
    Ok (service ++ ":" ++ model ++ ":" ++ queryHash ++ ":" ++ docsHash))).

(** ** Scores *)

(** What a [relevance_score] or [score] member of a response entry can
    hold: nothing, [null], a boolean, a number or a string. *)
Inductive sval :=
| SUndefined
| SNull
| SBool (b : bool)
| SNum (q : Q)
| SStr (s : string).

Definition truthyS (v : sval) : bool :=
  match v with
  | SUndefined | SNull => false
  | SBool b => b
  | SNum q => negb (Qeq_bool q 0)
  | SStr s => negb (String.eqb s EmptyString)
  end.

Definition isSpace (c : ascii) : bool :=
  let n := charCode c in
  (n =? 9) || (n =? 10) || (n =? 11) || (n =? 12) || (n =? 13)
  || (n =? 32) || (n =? 160).

Fixpoint dropSpaces (l : list ascii) : list ascii :=
  match l with
  | c :: t => if isSpace c then dropSpaces t else l
  | [] => []
  end.

Definition isDigit (c : ascii) : bool :=
  (48 <=? charCode c) && (charCode c <=? 57).

(** Reads a run of decimal digits: its value, its length, the rest. *)
Fixpoint readDigits (acc : Z) (len : nat) (l : list ascii)
  : Z * nat * list ascii :=
  match l with
  | c :: t =>
      if isDigit c then readDigits (10 * acc + (charCode c - 48)) (S len) t
      else (acc, len, l)
  | [] => (acc, len, [])
  end.

Definition signOf (l : list ascii) : bool * list ascii :=
  match l with
  | c :: t =>
      if charCode c =? 45 then (true, t)
      else if charCode c =? 43 then (false, t)
      else (false, l)
  | [] => (false, [])
  end.

(** [StringToNumber], [None] standing for [NaN]: surrounding white space
    is dropped, the empty string is 0, and a signed decimal literal with
    an optional fraction has its value.  Text that is no numeric literal
    is [NaN]; so are, in this model, the literal forms not read here
    (exponents, [0x..], [Infinity]). *)
Definition stringToNumber (s : string) : option Q :=
  let l := rev (dropSpaces (rev (dropSpaces (list_ascii_of_string s)))) in
  match l with
  | [] => Some 0%Q
  | _ =>
      let '(neg, l1) := signOf l in
      let '(ip, ni, l2) := readDigits 0 0 l1 in
      let sign := if neg then (-1) else 1 in
      match l2 with
      | [] => if Nat.eqb ni 0 then None else Some (inject_Z (sign * ip))
      | c :: l3 =>
          if charCode c =? 46 then
            let '(fp, nf, l4) := readDigits 0 0 l3 in
            match l4 with
            | [] =>
                if Nat.eqb (ni + nf) 0 then None
                else
                  let scale := 10 ^ Z.of_nat nf in
                  Some (Qmake (sign * (ip * scale + fp)) (Z.to_pos scale))
            | _ => None
            end
          else None
      end
  end.

(** [ToNumber], [None] standing for [NaN]. *)
Definition toNumber (v : sval) : option Q :=
  match v with
  | SUndefined => None
  | SNull => Some 0%Q
  | SBool true => Some 1%Q
  | SBool false => Some 0%Q
  | SNum q => Some q
  | SStr s => stringToNumber s
  end.

(** [v >= threshold]; a comparison with [NaN] is false. *)
Definition geJS (v : sval) (threshold : Q) : bool :=
  match toNumber v with
  | Some q => Qle_bool threshold q
  | None => false
  end.

(** ** Response entries and scored results *)

Record rawEntry := {
  index : Z;
  relevance_score : sval;
  score : sval
}.

(** The [results] member of a response. *)
Inductive rawResults :=
| RMissing
| RNull
| RNotArray
| RArray (rs : list rawEntry).

(** [r.relevance_score || r.score || 0]. *)
Definition resolveScore (r : rawEntry) : sval :=
  if truthyS (relevance_score r) then relevance_score r
  else if truthyS (score r) then score r
  else SNum 0.

(** A produced result: the properties copied from the original document
    by the spread, other than the two markers, and the two markers. *)
Record scored := {
  fields : list (string * value);
  _rerankScore : sval;
  _originalIndex : Z
}.

(** [originalDocs[i]]: [undefined] outside the array. *)
Definition docAt (originalDocs : list value) (i : Z) : value :=
  if i <? 0 then VUndefined
  else nth (Z.to_nat i) originalDocs VUndefined.

Definition indexed (l : list value) : list (string * value) :=
  combine (map (fun i => numberToString (Z.of_nat i)) (seq 0 (List.length l))) l.

Definition isMarker (k : string) : bool :=
  String.eqb k "_rerankScore" || String.eqb k "_originalIndex".

(** The own enumerable properties [{...d}] copies. *)
Definition spread (h : heap) (d : value) : list (string * value) :=
  match d with
  | VRef a =>
      match nth_error h a with
      | Some (CObj props) => props
      | Some (CArr elems) => indexed elems
      | None => []
      end
  | VStr s =>
      indexed (map (fun c => VStr (String c EmptyString)) (list_ascii_of_string s))
  | _ => []
  end.

Definition isNullish (v : value) : bool :=
  match v with
  | VUndefined | VNull => true
  | _ => false
  end.

(** The body of the [map] callback.  [originalDoc._originalScore] is read
    only when [includeOriginalScores] holds, and reading it off
    [undefined] or [null] is a [TypeError]; the assignment that follows
    rewrites a property the spread has already copied. *)
Definition toScored (h : heap) (originalDocs : list value)
    (includeOriginalScores : bool) (r : rawEntry) : result scored :=
  let originalDoc := docAt originalDocs (index r) in
  let score := resolveScore r in
  let result := {|
    fields := filter (fun p => negb (isMarker (fst p))) (spread h originalDoc);
    _rerankScore := score;
    _originalIndex := index r |} in
  if includeOriginalScores && isNullish originalDoc
  then Throw (TypeError "Cannot read properties of undefined (reading '_originalScore')")
  else Ok result.

(** The comparator [(a, b) => b._rerankScore - a._rerankScore];
    [None] is [NaN]. *)
Definition comparator (a b : scored) : option Q :=
  match toNumber (_rerankScore b), toNumber (_rerankScore a) with
  | Some qb, Some qa => Some (qb - qa)%Q
  | _, _ => None
  end.

(** [a] sorts after [b]: the comparator is positive ([NaN] counts as 0). *)
Definition sortsAfter (a b : scored) : bool :=
  match comparator a b with
  | Some v => negb (Qle_bool v 0)
  | None => false
  end.

Fixpoint insertSorted (x : scored) (l : list scored) : list scored :=
  match l with
  | [] => [x]
  | y :: t => if sortsAfter x y then y :: insertSorted x t else x :: y :: t
  end.

(** [Array.prototype.sort] with that comparator: a stable sort, written
    here as the insertion of each element, from last to first, before the
    elements it does not sort after. *)
Definition sortByScore (l : list scored) : list scored :=
  fold_right insertSorted [] l.

Definition invalidResults : exn :=
  NodeOperationError "Invalid reranking results: expected array of results".

Definition processRerankResults (h : heap) (results : rawResults)
    (originalDocs : list value) (threshold : Q) (includeOriginalScores : bool)
  : result (list scored) :=
  match results with
  | RArray rs =>
      rbind (rmap (toScored h originalDocs includeOriginalScores)
               (filter (fun r => geJS (resolveScore r) threshold) rs))
            (fun mapped => Ok (sortByScore mapped))
  | _ => Throw invalidResults
  end.

(** ** The result cache *)

Record CacheEntry := {
  results : list scored;
  timestamp : Z
}.

(** [rerankCache]: a [Map] in insertion order. *)
Definition Cache := list (string * CacheEntry).

Definition Map_get (key : string) (c : Cache) : option CacheEntry :=
  assoc key c.

(** [Map.prototype.set]: an existing key keeps its place. *)
Fixpoint Map_set (key : string) (e : CacheEntry) (c : Cache) : Cache :=
  match c with
  | [] => [(key, e)]
  | (k, e') :: t =>
      if String.eqb key k then (key, e) :: t else (k, e') :: Map_set key e t
  end.

Definition Map_delete (key : string) (c : Cache) : Cache :=
  filter (fun p => negb (String.eqb key (fst p))) c.

Definition Map_size (c : Cache) : Z := Z.of_nat (List.length c).

(** [rerankCache.keys().next().value]. *)
Definition firstKeyOf (c : Cache) : option string :=
  match c with
  | [] => None
  | (k, _) :: _ => Some k
  end.

Definition getCachedResult (key : string) (ttlMinutes : Z) (now : Z)
    (rerankCache : Cache) : option (list scored) * Cache :=
  let cached := Map_get key rerankCache in
  let ttlMs := ttlMinutes * 60 * 1000 in
  match cached with
  | Some e =>
      if now - timestamp e <? ttlMs then (Some (results e), rerankCache)
      else (None, Map_delete key rerankCache)
  | None => (None, rerankCache)
  end.

Definition setCachedResult (key : string) (rs : list scored) (now : Z)
    (rerankCache : Cache) : Cache :=
  let rerankCache := Map_set key {| results := rs; timestamp := now |} rerankCache in
  if Map_size rerankCache >? 1000 then
    match firstKeyOf rerankCache with
    | Some firstKey =>
        if negb (String.eqb firstKey EmptyString)
        then Map_delete firstKey rerankCache
        else rerankCache
    | None => rerankCache
    end
  else rerankCache.

(** ** The world a call runs in *)

Record requestBody := {
  body_model : string;
  body_query : string;
  (** each document text, between the prefix and suffix put around it *)
  body_documents : list (string * value * string);
  top_n : Z
}.

Record request := {
  url : string;
  authorization : option string;
  body : requestBody
}.

Inductive event :=
| EvGetCached (key : string)
| EvSetCached (key : string)
| EvHttpRequest (req : request).

Record world := {
  rerankCache : Cache;
  clock : Z;            (* what [Date.now()] returns *)
  effects : list event  (* oldest first *)
}.

(** A computation that reads and updates the world and may throw. *)
Definition M (A : Type) : Type := world -> result A * world.

Definition ret {A} (a : A) : M A := fun w => (Ok a, w).

Definition throw {A} (e : exn) : M A := fun w => (Throw e, w).

Definition bind {A B} (m : M A) (k : A -> M B) : M B :=
  fun w =>
    match m w with
    | (Ok a, w') => k a w'
    | (Throw e, w') => (Throw e, w')
    end.

Definition liftR {A} (r : result A) : M A := fun w => (r, w).

(** [try { m } catch (error) { throw handler(error) }]. *)
Definition tryRethrow {A} (m : M A) (handler : exn -> exn) : M A :=
  fun w =>
    match m w with
    | (Ok a, w') => (Ok a, w')
    | (Throw e, w') => (Throw (handler e), w')
    end.

Declare Scope m_scope.
Delimit Scope m_scope with M.
Notation "x <- c ;; k" := (bind c (fun x => k))
  (at level 61, c at next level, right associativity) : m_scope.
Notation "c ;;; k" := (bind c (fun _ => k))
  (at level 61, right associativity) : m_scope.

Definition record (ev : event) (w : world) : world :=
  {| rerankCache := rerankCache w; clock := clock w;
     effects := effects w ++ [ev] |}.

Definition getCached (key : string) (ttlMinutes : Z) : M (option (list scored)) :=
  fun w =>
    let (r, c) := getCachedResult key ttlMinutes (clock w) (rerankCache w) in
    (Ok r, {| rerankCache := c; clock := clock w;
              effects := effects w ++ [EvGetCached key] |}).

Definition setCached (key : string) (rs : list scored) : M unit :=
  fun w =>
    (Ok tt, {| rerankCache := setCachedResult key rs (clock w) (rerankCache w);
               clock := clock w;
               effects := effects w ++ [EvSetCached key] |}).

(** What the awaited [httpRequest] settles to: a parsed response, of which
    only [results] is read ([None]: the response is itself [null] or
    [undefined]), or a rejection. *)
Inductive httpReply :=
| Resolved (response : option rawResults)
| Rejected (e : exn).

(** The remote service: the reply to a request and the milliseconds that
    pass until it settles. *)
Definition network := request -> httpReply * Z.

Definition httpRequest (net : network) (req : request) : M (option rawResults) :=
  fun w =>
    let (reply, elapsed) := net req in
    let w' := {| rerankCache := rerankCache w; clock := clock w + elapsed;
                 effects := effects w ++ [EvHttpRequest req] |} in
    match reply with
    | Resolved r => (Ok r, w')
    | Rejected e => (Throw e, w')
    end.

(** [response.results]. *)
Definition resultsOf (response : option rawResults) : result rawResults :=
  match response with
  | Some r => Ok r
  | None => Throw (TypeError "Cannot read properties of undefined (reading 'results')")
  end.

(** [l.slice(0, topK)] for an integer [topK]: a negative end counts from
    the end of the array. *)
Definition slice0 {A} (topK : Z) (l : list A) : list A :=
  let len := Z.of_nat (List.length l) in
  let final := if topK <? 0 then Z.max (len + topK) 0 else Z.min topK len in
  firstn (Z.to_nat final) l.

Local Open Scope m_scope.

(** ** The adapters *)

(** What [rerankWithOpenAI] and [rerankWithCohere] have in common, from
    the cache lookup to the [catch] clause; they differ in the service
    name, the model, the request they build and the errors they report. *)
Section Adapter.
  Variable h : heap.
  Variable net : network.
  Variables service model : string.
  Variable enableCache : bool.
  Variable cacheTtl : Z.
  Variable buildRequest : list value -> request.
  Variable onError : exn -> exn.

Definition rerankWith (query : string) (docs : list value) (topK : Z)
      (threshold : Q) (includeOriginalScores : bool) : M (list scored) :=
    hit <- (if enableCache then
              cacheKey <- liftR (createCacheKey h query docs service model) ;;
              cached <- getCached cacheKey cacheTtl ;;
              ret (option_map
                     (fun c => slice0 topK
                        (filter (fun doc => geJS (_rerankScore doc) threshold) c))
                     cached)
            else ret None) ;;
    match hit with
    | Some out => ret out
    | None =>
        texts <- liftR (documentTexts h docs) ;;
        tryRethrow
          (response <- httpRequest net (buildRequest texts) ;;
           raw <- liftR (resultsOf response) ;;
           processed <- liftR (processRerankResults h raw docs threshold
                                 includeOriginalScores) ;;
           (if enableCache then
              cacheKey <- liftR (createCacheKey h query docs service model) ;;
              setCached cacheKey processed
            else ret tt) ;;;
           ret processed)
          onError
    end.
End Adapter.

(** ** Node parameters and the execution context *)

Record nodeParams := {
  p_service : string;
  p_query : string;
  p_documentsField : string;
  p_topK : Z;
  p_threshold : Q;
  p_includeOriginalScores : bool;
  p_endpoint : string;
  p_model : string;
  p_enableCache : bool;
  p_cacheTtl : Z;
  p_enableCustomTemplates : bool;
  p_templatePreset : string;
  p_instruction : string;
  p_queryPrefix : string;
  p_querySuffix : string;
  p_documentPrefix : string;
  p_documentSuffix : string;
  p_cohereModel : string;
  p_cohereCustomModel : string
}.

(** [this]: the parameters of each item, the credential store (the API
    key of a credential, or the error its lookup rejects with) and the
    remote service. *)
Record context := {
  getNodeParameter : nat -> nodeParams;
  getCredentials : string -> result string;
  net : network
}.

Definition nl : string := String (ascii_of_nat 10) EmptyString.

Definition messageOf (e : exn) : string :=
  match e with
  | TypeError m | NodeOperationError m | NodeApiError m _
  | HttpError _ _ m | CredentialError m => m
  end.

(** The [catch] clause of an adapter: an error that carries a response
    body becomes an API error with its status, any other error a failed
    request. *)
Definition apiError (apiLabel failLabel : string)
    (describeBody describeError : string -> string) (e : exn) : exn :=
  match e with
  | HttpError status (Some responseBody) _ =>
      NodeApiError
        (apiLabel ++ " (" ++
           match status with
           | Some c => numberToString c
           | None => "undefined"
           end ++ ")")
        (describeBody responseBody)
  | _ => NodeApiError failLabel (describeError (messageOf e))
  end.

Definition plainTexts (texts : list value) : list (string * value * string) :=
  map (fun t => (EmptyString, t, EmptyString)) texts.

(** [rerankWithOpenAI] of [rerank.helpers.ts]: no credentials, no
    templates. *)
Definition rerankWithOpenAI_plain (this : context) (h : heap) (query : string)
    (docs : list value) (topK : Z) (threshold : Q) (itemIndex : nat)
    (includeOriginalScores : bool) : M (list scored) :=
  let p := getNodeParameter this itemIndex in
  let endpoint := p_endpoint p in
  let model := p_model p in
  let enableCache := p_enableCache p in
  let cacheTtl := p_cacheTtl p in
  rerankWith h (net this) "openai-compatible" model enableCache cacheTtl
    (fun documentTexts =>
       {| url := endpoint;
          authorization := None;
          body := {| body_model := model;
                     body_query := query;
                     body_documents := plainTexts documentTexts;
                     top_n := Z.min topK (Z.of_nat (List.length docs)) |} |})
    (apiError "API Error" "Request failed" (fun b => b) (fun m => m))
    query docs topK threshold includeOriginalScores.

Definition qwen3QueryPrefix : string :=
  "<|im_start|>system" ++ nl ++
  "Judge whether the Document meets the requirements based on the Query and the Instruct provided. Note that the answer can only be "
  ++ dq ++ "yes" ++ dq ++ " or " ++ dq ++ "no" ++ dq ++ ".<|im_end|>" ++ nl ++
  "<|im_start|>user" ++ nl.

Definition qwen3DocumentSuffix : string :=
  "<|im_end|>" ++ nl ++ "<|im_start|>assistant" ++ nl ++ "<think>" ++ nl ++ nl
  ++ "</think>" ++ nl ++ nl.

(** The query and the documents that are sent, after the template
    step. *)
Definition finalQuery (p : nodeParams) (query : string) : string :=
  if p_enableCustomTemplates p then
    if String.eqb (p_templatePreset p) "qwen3" then
      qwen3QueryPrefix ++ "<Instruct>: " ++ p_instruction p ++ nl ++
      "<Query>: " ++ query ++ nl ++ EmptyString
    else p_queryPrefix p ++ query ++ p_querySuffix p
  else query.

Definition finalDocuments (p : nodeParams) (documentTexts : list value)
  : list (string * value * string) :=
  if p_enableCustomTemplates p then
    if String.eqb (p_templatePreset p) "qwen3" then
      map (fun doc => (EmptyString ++ "<Document>: ", doc, qwen3DocumentSuffix))
          documentTexts
    else
      map (fun doc => (p_documentPrefix p, doc, p_documentSuffix p)) documentTexts
  else plainTexts documentTexts.

(** [rerankWithOpenAI] with the optional bearer credential and the prompt
    templates.  A failed lookup of the credential is swallowed.  The
    description of a failed request ends, in the source, with the stack
    trace of the error, which is left out here. *)
Definition rerankWithOpenAI (this : context) (h : heap) (query : string)
    (docs : list value) (topK : Z) (threshold : Q) (itemIndex : nat)
    (includeOriginalScores : bool) : M (list scored) :=
  let credentials :=
    match getCredentials this "openAiApi" with
    | Ok apiKey => Some apiKey
    | Throw _ => None
    end in
  let p := getNodeParameter this itemIndex in
  let endpoint := p_endpoint p in
  let model := p_model p in
  let enableCache := p_enableCache p in
  let cacheTtl := p_cacheTtl p in
  rerankWith h (net this) "openai-compatible" model enableCache cacheTtl
    (fun documentTexts =>
       {| url := endpoint;
          authorization :=
            match credentials with
            | Some apiKey =>
                if negb (String.eqb apiKey EmptyString)
                then Some ("Bearer " ++ apiKey) else None
            | None => None
            end;
          body := {| body_model := model;
                     body_query := finalQuery p query;
                     body_documents := finalDocuments p documentTexts;
                     top_n := Z.min topK (Z.of_nat (List.length docs)) |} |})
    (apiError "API Error" "Request failed"
       (fun b => "Endpoint: " ++ endpoint ++ nl ++ "Response: " ++ b)
       (fun m => "Endpoint: " ++ endpoint ++ nl ++ "Error: " ++ m))
    query docs topK threshold includeOriginalScores.

(** [rerankWithCohere]: the official credential, else the legacy one,
    whose failure is the failure of the call. *)
Definition rerankWithCohere (this : context) (h : heap) (query : string)
    (docs : list value) (topK : Z) (threshold : Q) (itemIndex : nat)
    (includeOriginalScores : bool) : M (list scored) :=
  credentials <- liftR
    (match getCredentials this "cohereApi" with
     | Ok apiKey => Ok apiKey
     | Throw _ => getCredentials this "cohereRerankerApi"
     end) ;;
  let p := getNodeParameter this itemIndex in
  let cohereModel := p_cohereModel p in
  let model :=
    if String.eqb cohereModel "custom" then p_cohereCustomModel p
    else cohereModel in
  let enableCache := p_enableCache p in
  let cacheTtl := p_cacheTtl p in
  rerankWith h (net this) "cohere" model enableCache cacheTtl
    (fun documentTexts =>
       {| url := "https://api.cohere.ai/v1/rerank";
          authorization := Some ("Bearer " ++ credentials);
          body := {| body_model := model;
                     body_query := query;
                     body_documents := plainTexts documentTexts;
                     top_n := Z.min topK (Z.of_nat (List.length docs)) |} |})
    (apiError "Cohere API Error" "Cohere request failed" (fun b => b) (fun m => m))
    query docs topK threshold includeOriginalScores.

(** ** The flow node *)

(** A member of an item's [json]: an array of documents or anything
    else. *)
Inductive member :=
| MArray (docs : list value)
| MOther (v : value).

Record inputItem := { json : list (string * member) }.

Record outputItem := {
  out_json : list (string * member);   (* [...items[i].json] *)
  rerankedDocs : list scored;
  originalCount : Z;
  rerankedCount : Z;
  out_query : string
}.

(** [query.trim() === ''] *)
Definition isBlank (s : string) : bool :=
  match dropSpaces (list_ascii_of_string s) with
  | [] => true
  | _ => false
  end.

(** The body of the loop of [execute] for item [i], up to the [catch]. *)
Definition executeItemBody (this : context) (h : heap) (i : nat)
    (it : inputItem) : M outputItem :=
  let p := getNodeParameter this i in
  let service := p_service p in
  let query := p_query p in
  let docsField := p_documentsField p in
  let topK := p_topK p in
  let threshold := p_threshold p in
  let includeOriginalScores := p_includeOriginalScores p in
  if String.eqb query EmptyString || isBlank query then
    throw (NodeOperationError "Query cannot be empty")
  else
    match assoc docsField (json it) with
    | Some (MArray docs) =>
        if Nat.eqb (List.length docs) 0 then
          ret {| out_json := json it;
                 rerankedDocs := [];
                 originalCount := 0;
                 rerankedCount := 0;
                 out_query := query |}
        else
          rerankedDocs <-
            (if String.eqb service "openai-compatible" then
               rerankWithOpenAI this h query docs topK threshold i
                 includeOriginalScores
             else if String.eqb service "cohere" then
               rerankWithCohere this h query docs topK threshold i
                 includeOriginalScores
             else
               throw (NodeOperationError ("Unsupported service: " ++ service))) ;;
          ret {| out_json := json it;
                 rerankedDocs := rerankedDocs;
                 originalCount := Z.of_nat (List.length docs);
                 rerankedCount := Z.of_nat (List.length rerankedDocs);
                 out_query := query |}
    | _ =>
        throw (NodeOperationError
                 ("No documents found in field: " ++ docsField ++
                  ". Expected an array of documents."))
    end.

(** The [catch] of the loop: a [NodeOperationError] is thrown on as it
    is, anything else as a "Reranking failed" one. *)
Definition executeCatch (e : exn) : exn :=
  match e with
  | NodeOperationError _ => e
  | _ => NodeOperationError ("Reranking failed: " ++ messageOf e)
  end.

Definition executeItem (this : context) (h : heap) (i : nat) (it : inputItem)
  : M outputItem :=
  tryRethrow (executeItemBody this h i it) executeCatch.

Fixpoint executeFrom (this : context) (h : heap) (i : nat)
    (items : list inputItem) : M (list outputItem) :=
  match items with
  | [] => ret []
  | it :: rest =>
      o <- executeItem this h i it ;;
      os <- executeFrom this h (S i) rest ;;
      ret (o :: os)
  end.

(** [execute]: the output items of the input items, in order; the first
    error ends the run. *)
Definition execute (this : context) (h : heap) (items : list inputItem)
  : M (list outputItem) :=
  executeFrom this h 0 items.

(** ** The course of a call *)

Section Course.
  Variable h : heap.
  Variable net : network.
  Variables service model : string.
  Variable enableCache : bool.
  Variable cacheTtl : Z.
  Variable buildRequest : list value -> request.
  Variable onError : exn -> exn.
  Variables (query : string) (docs : list value) (topK : Z) (threshold : Q)
            (includeOriginalScores : bool).

  (** What the [try] block computes from the reply of the service. *)
Definition processedReply (reply : httpReply) : result (list scored) :=
    match reply with
    | Rejected e => Throw e
    | Resolved response =>
        rbind (resultsOf response) (fun raw =>
          processRerankResults h raw docs threshold includeOriginalScores)
    end.

  (** The remote part of a call that starts in [w1]; [key] is the
      fingerprint when the cache is enabled. *)
Definition remoteCourse (key : option string) (w1 : world)
      (r : result (list scored)) (w' : world) : Prop :=
    match documentTexts h docs with
    | Throw e => r = Throw e /\ w' = w1
    | Ok texts =>
        let req := buildRequest texts in
        let w2 := {| rerankCache := rerankCache w1;
                     clock := clock w1 + snd (net req);
                     effects := effects w1 ++ [EvHttpRequest req] |} in
        match processedReply (fst (net req)) with
        | Throw e => r = Throw (onError e) /\ w' = w2
        | Ok processed =>
            r = Ok processed /\
            w' = match key with
                 | Some k =>
                     {| rerankCache :=
                          setCachedResult k processed (clock w2) (rerankCache w2);
                        clock := clock w2;
                        effects := effects w2 ++ [EvSetCached k] |}
                 | None => w2
                 end
        end
    end.

  (** A call either fails to fingerprint its documents, or is served
      from the cache, or takes the remote course. *)
Definition course (w : world) (r : result (list scored)) (w' : world)
    : Prop :=
    if enableCache then
      match createCacheKey h query docs service model with
      | Throw e => r = Throw e /\ w' = w
      | Ok k =>
          let w1 := {| rerankCache :=
                         snd (getCachedResult k cacheTtl (clock w) (rerankCache w));
                       clock := clock w;
                       effects := effects w ++ [EvGetCached k] |} in
          match fst (getCachedResult k cacheTtl (clock w) (rerankCache w)) with
          | Some cached =>
              r = Ok (slice0 topK
                        (filter (fun doc => geJS (_rerankScore doc) threshold)
                           cached))
              /\ w' = w1
          | None => remoteCourse (Some k) w1 r w'
          end
      end
    else remoteCourse None w r w'.
End Course.

(** ** Invariants of the cache *)

(** The keys of the cache are fingerprints, which are never the empty
    string ([createCacheKey_nonempty]); as the keys of a [Map] they are
    pairwise distinct. *)
Record wfCache (c : Cache) : Prop := {
  wf_nodup : NoDup (map fst c);
  wf_keys : Forall (fun k => k <> EmptyString) (map fst c);
  wf_size : Map_size c <= 1000
}.

(** A run of puts: each entry is a key, the list to store and the time
    of the put. *)
Definition putAll (entries : list (string * list scored * Z)) (c : Cache)
  : Cache :=
  fold_left
    (fun c kv => setCachedResult (fst (fst kv)) (snd (fst kv)) (snd kv) c)
    entries c.

Definition keyOf (kv : string * list scored * Z) : string := fst (fst kv).

(** ** Every adapter *)

Inductive adapter :=
| OpenAIPlain      (* [rerankWithOpenAI] without templates *)
| OpenAITemplates  (* [rerankWithOpenAI] with credential and templates *)
| Cohere.

Definition rerank (a : adapter) :=
  match a with
  | OpenAIPlain => rerankWithOpenAI_plain
  | OpenAITemplates => rerankWithOpenAI
  | Cohere => rerankWithCohere
  end.

(** The score of a result is a number. *)
Definition numericScore (r : scored) : Prop :=
  toNumber (_rerankScore r) <> None.

(** [a] scores at least as high as [b]. *)
Definition scoreGe (a b : scored) : Prop :=
  match toNumber (_rerankScore a), toNumber (_rerankScore b) with
  | Some qa, Some qb => (qb <= qa)%Q
  | _, _ => False
  end.

(** The score of a result is a number that is at least the threshold. *)
Definition passes (threshold : Q) (r : scored) : Prop :=
  exists q, toNumber (_rerankScore r) = Some q /\ (threshold <= q)%Q.


(** The service name and the model an adapter fingerprints with. *)
Definition serviceOf (a : adapter) : string :=
  match a with
  | Cohere => "cohere"
  | _ => "openai-compatible"
  end.

Definition modelOf (a : adapter) (p : nodeParams) : string :=
  match a with
  | Cohere =>
      if String.eqb (p_cohereModel p) "custom" then p_cohereCustomModel p
      else p_cohereModel p
  | _ => p_model p
  end.

(** The effects a call has added to the log. *)
Definition newEffects (w w' : world) : list event :=
  skipn (List.length (effects w)) (effects w').

(** The cache keys looked up or stored under, and the keys stored
    under. *)
Definition usedKeys (evs : list event) : list string :=
  flat_map (fun ev => match ev with
                      | EvGetCached k | EvSetCached k => [k]
                      | EvHttpRequest _ => []
                      end) evs.

Definition storedKeys (evs : list event) : list string :=
  flat_map (fun ev => match ev with
                      | EvSetCached k => [k]
                      | _ => []
                      end) evs.

Definition requestsOf (evs : list event) : list request :=
  flat_map (fun ev => match ev with
                      | EvHttpRequest req => [req]
                      | _ => []
                      end) evs.

(** ** A worked configuration

    Three documents, the query of the end-to-end scenario and a service
    that answers every request with the same three scores, whatever
    [top_n] asks for. *)

Definition demoHeap : heap :=
  [ CObj [("pageContent", VStr "Neural networks learn representations")];
    CObj [("text", VStr "Artificial intelligence studies rational agents")];
    CObj [("title", VStr "Growing tomatoes")] ].

Definition demoDocs : list value := [VRef 0%nat; VRef 1%nat; VRef 2%nat].

Definition demoQuery : string := "artificial intelligence".

Definition demoParams (enableCache templates : bool) : nodeParams := {|
  p_service := "openai-compatible";
  p_query := demoQuery;
  p_documentsField := "documents";
  p_topK := 10;
  p_threshold := 0%Q;
  p_includeOriginalScores := false;
  p_endpoint := "http://localhost:8000/v1/rerank";
  p_model := "test-model";
  p_enableCache := enableCache;
  p_cacheTtl := 5;
  p_enableCustomTemplates := templates;
  p_templatePreset := "qwen3";
  p_instruction :=
    "Given a web search query, retrieve relevant passages that answer the query";
  p_queryPrefix := EmptyString;
  p_querySuffix := EmptyString;
  p_documentPrefix := EmptyString;
  p_documentSuffix := EmptyString;
  p_cohereModel := "rerank-v3.5";
  p_cohereCustomModel := EmptyString
|}.

Definition scoredEntry (i : Z) (s : sval) : rawEntry :=
  {| index := i; relevance_score := s; score := SUndefined |}.

Definition demoResponse : rawResults :=
  RArray [ scoredEntry 1 (SNum (9 # 10));
           scoredEntry 0 (SNum (4 # 10));
           scoredEntry 2 (SNum (1 # 10)) ].

Definition respondingNet : network :=
  fun _ => (Resolved (Some demoResponse), 120).

Definition refusingNet : network :=
  fun _ => (Rejected (HttpError None None "connect ECONNREFUSED"), 30).

(** No credential for the OpenAI-compatible endpoint, one for Cohere. *)
Definition demoContext (p : nodeParams) (n : network) : context := {|
  getNodeParameter := fun _ => p;
  getCredentials := fun name =>
    if String.eqb name "openAiApi"
    then Throw (CredentialError "No credentials found")
    else Ok "demo-cohere-key";
  net := n
|}.

Definition startWorld : world :=
  {| rerankCache := []; clock := 1000000; effects := [] |}.

(** The world after [ms] more milliseconds. *)
Definition later (ms : Z) (w : world) : world :=
  {| rerankCache := rerankCache w; clock := clock w + ms;
     effects := effects w |}.

(** The original indices of the results of a call, in order. *)
Definition indicesOf (r : result (list scored)) : option (list Z) :=
  match r with
  | Ok l => Some (map _originalIndex l)
  | Throw _ => None
  end.

(** The world six minutes after a first, successful call with the cache
    enabled: its entry, kept for five minutes, has expired. *)
Definition expiredWorld : world :=
  later 360000
    (snd (rerankWithOpenAI (demoContext (demoParams true false) respondingNet)
            demoHeap demoQuery demoDocs 10 0%Q 0%nat false startWorld)).

(** What the adapter reports when the connection is refused. *)
Definition refusedError : exn :=
  NodeApiError "Request failed"
    ("Endpoint: http://localhost:8000/v1/rerank" ++ nl ++
     "Error: connect ECONNREFUSED").

(** [p] with another query and another [topK]. *)
Definition withQueryTopK (query : string) (topK : Z) (p : nodeParams)
  : nodeParams := {|
  p_service := p_service p;
  p_query := query;
  p_documentsField := p_documentsField p;
  p_topK := topK;
  p_threshold := p_threshold p;
  p_includeOriginalScores := p_includeOriginalScores p;
  p_endpoint := p_endpoint p;
  p_model := p_model p;
  p_enableCache := p_enableCache p;
  p_cacheTtl := p_cacheTtl p;
  p_enableCustomTemplates := p_enableCustomTemplates p;
  p_templatePreset := p_templatePreset p;
  p_instruction := p_instruction p;
  p_queryPrefix := p_queryPrefix p;
  p_querySuffix := p_querySuffix p;
  p_documentPrefix := p_documentPrefix p;
  p_documentSuffix := p_documentSuffix p;
  p_cohereModel := p_cohereModel p;
  p_cohereCustomModel := p_cohereCustomModel p
|}.

(** An input item whose [documents] member is the given array. *)
Definition itemWith (docs : list value) : inputItem :=
  {| json := [("documents", MArray docs); ("source", MOther (VStr "demo"))] |}.

(** What the flow node puts out for an item without documents. *)
Definition emptyOutput (it : inputItem) (query : string) : outputItem :=
  {| out_json := json it;
     rerankedDocs := [];
     originalCount := 0;
     rerankedCount := 0;
     out_query := query |}.

(** ** Object graphs *)

(** The values a cell holds. *)
Definition valuesOf (c : cell) : list value :=
  match c with
  | CObj props => map snd props
  | CArr elems => elems
  end.





(** 1001 puts under the keys [fp:0], ..., [fp:1000], one millisecond
    apart. *)
Definition manyEntries : list (string * list scored * Z) :=
  map (fun i => ("fp:" ++ numberToString (Z.of_nat i), [], 1000000 + Z.of_nat i))
      (seq 0 1001).

(** The strings of a list are pairwise distinct. *)
Fixpoint distinctb (l : list string) : bool :=
  match l with
  | [] => true
  | x :: t => negb (existsb (String.eqb x) t) && distinctb t
  end.

(** ** Further operations *)

Unset Implicit Arguments.

(** [clearCache]: [rerankCache.clear()]. *)
Definition clearCache : M unit :=
  fun w => (Ok tt, {| rerankCache := []; clock := clock w;
                      effects := effects w |}).

(** The polynomial [c0 * 31^(n-1) + ... + c(n-1)] over the code units of
    a string, continued from [acc], in unbounded integers. *)
Fixpoint polyHash (acc : Z) (str : string) : Z :=
  match str with
  | EmptyString => acc
  | String c t => polyHash (31 * acc + charCode c) t
  end.

(** The result the [map] callback of [processRerankResults] builds for
    an entry. *)
Definition scoredOf (h : heap) (originalDocs : list value) (r : rawEntry)
  : scored :=
  {| fields := filter (fun p => negb (isMarker (fst p)))
                 (spread h (docAt originalDocs (index r)));
     _rerankScore := resolveScore r;
     _originalIndex := index r |}.


(** The labels of the two errors an adapter reports. *)
Definition apiLabelOf (a : adapter) : string :=
  match a with
  | Cohere => "Cohere API Error"
  | _ => "API Error"
  end.

Definition failLabelOf (a : adapter) : string :=
  match a with
  | Cohere => "Cohere request failed"
  | _ => "Request failed"
  end.

(** Where an adapter sends its request. *)
Definition urlOf (a : adapter) (p : nodeParams) : string :=
  match a with
  | Cohere => "https://api.cohere.ai/v1/rerank"
  | _ => p_endpoint p
  end.

(** The query text an adapter sends. *)
Definition sentQuery (a : adapter) (p : nodeParams) (query : string) : string :=
  match a with
  | OpenAITemplates => finalQuery p query
  | _ => query
  end.

(** The shape of what an adapter builds from the document texts. *)
Definition wellBuilt (a : adapter) (p : nodeParams) (query : string)
    (docs : list value) (topK : Z) (texts : list value) (req : request)
  : Prop :=
  url req = urlOf a p
  /\ body_model (body req) = modelOf a p
  /\ body_query (body req) = sentQuery a p query
  /\ map (fun d => snd (fst d)) (body_documents (body req)) = texts
  /\ top_n (body req) = Z.min topK (Z.of_nat (List.length docs)).


(** The [Authorization] header an adapter sends, if any: none from the
    plain adapter; the bearer of a resolved, non-empty OpenAI key; the
    bearer of the official Cohere key, else of the legacy one. *)
Definition authorizationOf (a : adapter) (this : context) : option string :=
  match a with
  | OpenAIPlain => None
  | OpenAITemplates =>
      match getCredentials this "openAiApi" with
      | Ok apiKey =>
          if String.eqb apiKey EmptyString then None
          else Some ("Bearer " ++ apiKey)%string
      | Throw _ => None
      end
  | Cohere =>
      match getCredentials this "cohereApi" with
      | Ok apiKey => Some ("Bearer " ++ apiKey)%string
      | Throw _ =>
          match getCredentials this "cohereRerankerApi" with
          | Ok apiKey => Some ("Bearer " ++ apiKey)%string
          | Throw _ => None
          end
      end
  end.


(** ** The provider node *)

(** [typeof doc === 'object'] for a truthy [doc]. *)
Definition isObject (doc : value) : bool :=
  match doc with
  | VRef _ => true
  | _ => false
  end.

(** [String(doc)] for a [doc] that is no object. *)
Definition stringOf (doc : value) : string :=
  match doc with
  | VUndefined => "undefined"
  | VNull => "null"
  | VBool true => "true"
  | VBool false => "false"
  | VNum n => numberToString n
  | VStr s => s
  | VRef _ => "[object Object]"
  end.

(** The [pageContent] of the processed document of [doc]. *)
Definition pageContentOf (h : heap) (doc : value) : result value :=
  if isObject doc then documentText h doc else Ok (VStr (stringOf doc)).

(** The object literal of the [processedDocs] map. *)
Definition processedDoc (pageContent metadata : value) (docIndex : nat)
  : cell :=
  CObj [("pageContent", pageContent); ("metadata", metadata);
        ("_originalIndex", VNum (Z.of_nat docIndex))].

(** A new object: its reference and the heap that holds it. *)
Definition alloc (c : cell) (acc : heap) : value * heap :=
  (VRef (List.length acc), (acc ++ [c])%list).

(** The element function of the [processedDocs] map.  The objects it
    creates go to [acc], which extends the heap [h] of the call; creating
    them leaves the documents as they are, so these are read in [h]. *)
Definition convertDoc (h : heap) (docIndex : nat) (doc : value) (acc : heap)
  : result (value * heap) :=
  if isObject doc then
    rbind (documentText h doc) (fun pageContent =>
      let metadata := getField h doc "metadata" in
      if truthy metadata then
        Ok (alloc (processedDoc pageContent metadata docIndex) acc)
      else
        let (fresh, acc1) := alloc (CObj []) acc in
        Ok (alloc (processedDoc pageContent fresh docIndex) acc1))
  else
    let (fresh, acc1) := alloc (CObj []) acc in
    Ok (alloc (processedDoc (VStr (stringOf doc)) fresh docIndex) acc1).

Fixpoint convertDocs (h : heap) (docIndex : nat) (docs : list value)
    (acc : heap) : result (list value * heap) :=
  match docs with
  | [] => Ok ([], acc)
  | doc :: rest =>
      rbind (convertDoc h docIndex doc acc) (fun '(pd, acc1) =>
      rbind (convertDocs h (S docIndex) rest acc1) (fun '(pds, acc2) =>
        Ok (pd :: pds, acc2)))
  end.

(** The argument of the provider's [rerank]; an absent [topN] or
    [threshold] is [None]. *)
Record rerankInput := {
  in_query : string;
  in_documents : member;
  in_topN : option Z;
  in_threshold : option Q
}.

(** What the provider hands to [addInputData] and [addOutputData]. *)
Inductive logEntry :=
| LogInput (query : string) (documents : member)
| LogOutput (response : list scored).

(** A call of the provider: what it returns or throws, the world and the
    heap it leaves, and what it has logged. *)
Record providerRun := {
  returned : result (list scored);
  worldAfter : world;
  heapAfter : heap;
  logged : list logEntry
}.

(** [provider.rerank]. *)
Definition providerRerank (this : context) (h : heap) (input : rerankInput)
    (w : world) : providerRun :=
  let logIn := LogInput (in_query input) (in_documents input) in
  let query := in_query input in
  let documents := in_documents input in
  let p := getNodeParameter this 0%nat in
  let service := p_service p in
  let topK := match in_topN input with
              | Some n => n
              | None => p_topK p
              end in
  let threshold := match in_threshold input with
                   | Some t => t
                   | None => p_threshold p
                   end in
  let includeOriginalScores := p_includeOriginalScores p in
  if String.eqb query EmptyString || isBlank query then
    {| returned := Throw (NodeOperationError "Query cannot be empty");
       worldAfter := w; heapAfter := h; logged := [logIn] |}
  else
    let docs := match documents with
                | MArray docs => docs
                | MOther _ => []
                end in
    if Nat.eqb (List.length docs) 0 then
      {| returned := Ok []; worldAfter := w; heapAfter := h;
         logged := [logIn] |}
    else
      match convertDocs h 0 docs h with
      | Throw e =>
          {| returned := Throw e; worldAfter := w; heapAfter := h;
             logged := [logIn] |}
      | Ok (processedDocs, h') =>
          let (r, w') :=
            (if String.eqb service "cohere" then
               rerankWithCohere this h' query processedDocs topK threshold
                 0%nat includeOriginalScores
             else
               rerankWithOpenAI this h' query processedDocs topK threshold
                 0%nat includeOriginalScores) w in
          match r with
          | Ok rerankedDocs =>
              {| returned := Ok rerankedDocs; worldAfter := w';
                 heapAfter := h';
                 logged := [logIn; LogOutput rerankedDocs] |}
          | Throw e =>
              {| returned := Throw e; worldAfter := w'; heapAfter := h';
                 logged := [logIn] |}
          end
      end.

(** A document the conversion keeps the text of: an object of the heap,
    or a primitive other than the empty string. *)
Definition regular (h : heap) (doc : value) : bool :=
  match doc with
  | VRef a =>
      match nth_error h a with
      | Some _ => true
      | None => false
      end
  | VStr s => negb (String.eqb s EmptyString)
  | _ => true
  end.

(** The processed documents [pds] in [h'] are those of [docs] in [h],
    numbered from [start]. *)
Definition converted (h : heap) (start : nat) (docs : list value)
    (pds : list value) (h' : heap) : Prop :=
  List.length pds = List.length docs
  /\ forall n doc, nth_error docs n = Some doc ->
       exists a text md,
         nth_error pds n = Some (VRef a)
         /\ nth_error h' a = Some (processedDoc text md (start + n))
         /\ pageContentOf h doc = Ok text
         /\ truthy md = true.

(** The three documents as the provider receives them, the last one a
    plain string. *)
Definition providerDocs : list value :=
  [VRef 0%nat; VRef 1%nat; VStr "Growing tomatoes"].

Definition providerInput (topN : option Z) : rerankInput :=
  {| in_query := demoQuery; in_documents := MArray providerDocs;
     in_topN := topN; in_threshold := None |}.

(** * Properties *)

Local Close Scope m_scope.
Local Open Scope list_scope.
Unset Implicit Arguments.

(** ** The [Map] *)

Lemma Map_get_delete_same key (c : Cache) :
  Map_get key (Map_delete key c) = None.
Proof.
  unfold Map_get, Map_delete.
  induction c as [|[k e] t IH]; simpl; [reflexivity|].
  destruct (String.eqb key k) eqn:E; simpl; [exact IH|].
  rewrite E. exact IH.
Qed.

Lemma Map_get_delete_other key key' (c : Cache) :
  key' <> key -> Map_get key' (Map_delete key c) = Map_get key' c.
Proof.
  intros Hne. unfold Map_get, Map_delete.
  induction c as [|[k e] t IH]; simpl; [reflexivity|].
  destruct (String.eqb key k) eqn:E; simpl.
  - apply String.eqb_eq in E. subst k.
    destruct (String.eqb key' key) eqn:E'; [|exact IH].
    apply String.eqb_eq in E'. contradiction.
  - destruct (String.eqb key' k); [reflexivity|exact IH].
Qed.

Lemma Map_get_In key (c : Cache) :
  Map_get key c <> None <-> In key (map fst c).
Proof.
  unfold Map_get.
  induction c as [|[k e] t IH]; simpl.
  - split; [congruence|tauto].
  - destruct (String.eqb key k) eqn:E.
    + apply String.eqb_eq in E. subst. split; [auto|discriminate].
    + apply String.eqb_neq in E. rewrite IH. split; [auto|].
      intros [H|H]; [congruence|exact H].
Qed.

Lemma Map_delete_absent key (c : Cache) :
  ~ In key (map fst c) -> Map_delete key c = c.
Proof.
  unfold Map_delete.
  induction c as [|[k e] t IH]; simpl; intros Hn; [reflexivity|].
  destruct (String.eqb key k) eqn:E.
  - apply String.eqb_eq in E. subst. tauto.
  - simpl. f_equal. apply IH. tauto.
Qed.

Lemma Map_set_present key e (c : Cache) :
  In key (map fst c) -> map fst (Map_set key e c) = map fst c.
Proof.
  induction c as [|[k e'] t IH]; simpl; intros Hin; [tauto|].
  destruct (String.eqb key k) eqn:E; simpl.
  - apply String.eqb_eq in E. now subst.
  - apply String.eqb_neq in E. f_equal. apply IH.
    destruct Hin; [congruence|assumption].
Qed.

Lemma Map_set_absent key e (c : Cache) :
  ~ In key (map fst c) -> Map_set key e c = (c ++ [(key, e)])%list.
Proof.
  induction c as [|[k e'] t IH]; simpl; intros Hn; [reflexivity|].
  destruct (String.eqb key k) eqn:E.
  - apply String.eqb_eq in E. subst. tauto.
  - f_equal. apply IH. tauto.
Qed.

Lemma Map_get_set_same key e (c : Cache) :
  Map_get key (Map_set key e c) = Some e.
Proof.
  unfold Map_get.
  induction c as [|[k e'] t IH]; simpl.
  - now rewrite String.eqb_refl.
  - destruct (String.eqb key k) eqn:E; simpl.
    + now rewrite String.eqb_refl.
    + now rewrite E.
Qed.

(** ** C5: lookup and expiry *)

(** C5.  [getCachedResult key ttlMinutes] returns the stored list exactly
    when an entry exists under [key] whose age [now - timestamp] is
    strictly below [ttlMinutes * 60000] ms, and then leaves the cache as
    it is; an entry that exists but has expired is deleted (only it: no
    other key is touched) and [null] is returned; without an entry [null]
    is returned and the cache is unchanged. *)
Theorem getCachedResult_spec (key : string) (ttlMinutes now : Z) (c : Cache) :
  match Map_get key c with
  | Some e =>
      (now - timestamp e < ttlMinutes * 60000 ->
       getCachedResult key ttlMinutes now c = (Some (results e), c))
      /\
      (~ now - timestamp e < ttlMinutes * 60000 ->
       getCachedResult key ttlMinutes now c = (None, Map_delete key c)
       /\ Map_get key (Map_delete key c) = None
       /\ forall key', key' <> key ->
            Map_get key' (Map_delete key c) = Map_get key' c)
  | None => getCachedResult key ttlMinutes now c = (None, c)
  end.
Proof.
  unfold getCachedResult.
  destruct (Map_get key c) as [e|] eqn:G; [|reflexivity].
  replace (ttlMinutes * 60 * 1000) with (ttlMinutes * 60000) by lia.
  split; intros Hage.
  - apply Z.ltb_lt in Hage. now rewrite Hage.
  - apply Z.ltb_nlt in Hage. rewrite Hage. repeat split.
    + apply Map_get_delete_same.
    + intros key' Hne. now apply Map_get_delete_other.
Qed.

(** ** C6: the size bound and the eviction order *)

Lemma wfCache_empty : wfCache [].
Proof.
  split; simpl; [constructor | constructor | unfold Map_size; simpl; lia].
Qed.

Lemma Map_delete_head k e (t : Cache) :
  ~ In k (map fst t) -> Map_delete k ((k, e) :: t) = t.
Proof.
  intros Hn. unfold Map_delete. simpl. rewrite String.eqb_refl. simpl.
  now apply Map_delete_absent.
Qed.

Lemma Map_size_app (c d : Cache) :
  Map_size (c ++ d) = Map_size c + Map_size d.
Proof. unfold Map_size. rewrite length_app. lia. Qed.

Lemma Map_size_set_present key e (c : Cache) :
  In key (map fst c) -> Map_size (Map_set key e c) = Map_size c.
Proof.
  intros Hin. unfold Map_size.
  rewrite <- (length_map fst (Map_set key e c)), Map_set_present by assumption.
  now rewrite length_map.
Qed.

(** A put into a well-formed cache, case by case. *)
Lemma setCachedResult_cases key rs now (c : Cache) :
  wfCache c -> key <> EmptyString ->
  let e := {| results := rs; timestamp := now |} in
  (In key (map fst c) /\ setCachedResult key rs now c = Map_set key e c)
  \/ (~ In key (map fst c) /\ Map_size c < 1000
      /\ setCachedResult key rs now c = (c ++ [(key, e)])%list)
  \/ (~ In key (map fst c) /\ Map_size c = 1000
      /\ exists k0 e0 t, c = (k0, e0) :: t
           /\ setCachedResult key rs now c = (t ++ [(key, e)])%list).
Proof.
  intros [Hnd Hk Hsz] Hkey e.
  destruct (in_dec string_dec key (map fst c)) as [Hin|Hin].
  - left. split; [assumption|]. unfold setCachedResult. fold e.
    rewrite Map_size_set_present by assumption.
    destruct (Map_size c >? 1000) eqn:G; [|reflexivity].
    apply Z.gtb_lt in G. lia.
  - right. unfold setCachedResult. fold e.
    rewrite (Map_set_absent key e c Hin), Map_size_app.
    change (Map_size [(key, e)]) with 1.
    destruct (Z.eq_dec (Map_size c) 1000) as [Heq|Hne].
    + right. split; [assumption|]. split; [assumption|].
      destruct c as [|[k0 e0] t]; [discriminate|].
      exists k0, e0, t. split; [reflexivity|].
      replace (Map_size ((k0, e0) :: t) + 1 >? 1000) with true
        by (symmetry; apply Z.gtb_lt; lia).
      simpl. simpl in Hk, Hnd, Hin.
      inversion Hk as [|? ? Hk0 _]; subst.
      inversion Hnd as [|? ? Hn0 _]; subst.
      destruct (String.eqb k0 EmptyString) eqn:E0.
      { apply String.eqb_eq in E0. contradiction. }
      simpl. change ((k0, e0) :: (t ++ [(key, e)])%list)
        with ((k0, e0) :: (t ++ [(key, e)]))%list.
      apply Map_delete_head.
      rewrite map_app, in_app_iff. simpl. intros [H|[H|[]]]; [tauto|].
      subst. tauto.
    + left. split; [assumption|]. split; [lia|].
      replace (Map_size c + 1 >? 1000) with false; [reflexivity|].
      symmetry. rewrite Z.gtb_ltb. apply Z.ltb_ge. lia.
Qed.

Lemma wfCache_set key rs now (c : Cache) :
  wfCache c -> key <> EmptyString -> wfCache (setCachedResult key rs now c).
Proof.
  intros Hwf Hkey.
  destruct (setCachedResult_cases key rs now c Hwf Hkey)
    as [[Hin ->]|[(Hin & Hlt & ->)|(Hin & Heq & k0 & e0 & t & -> & ->)]];
    destruct Hwf as [Hnd Hk Hsz].
  - split.
    + now rewrite Map_set_present.
    + now rewrite Map_set_present.
    + now rewrite Map_size_set_present.
  - split.
    + rewrite map_app. simpl. apply NoDup_app; [assumption| |].
      * constructor; [tauto|constructor].
      * intros x Hx [<-|[]]. tauto.
    + rewrite map_app. apply Forall_app. split; [assumption|].
      constructor; [assumption|constructor].
    + rewrite Map_size_app. change (Map_size [_]) with 1. lia.
  - simpl in Hnd, Hk, Hin. inversion Hnd; subst. inversion Hk; subst. split.
    + rewrite map_app. simpl. apply NoDup_app; [assumption| |].
      * constructor; [tauto|constructor].
      * intros x Hx [<-|[]]. tauto.
    + rewrite map_app. apply Forall_app. split; [assumption|].
      constructor; [assumption|constructor].
    + rewrite Map_size_app. change (Map_size [_]) with 1.
      unfold Map_size in *. rewrite length_cons in Heq. lia.
Qed.

(** As long as the bound is not reached, distinct new keys pile up in
    the order of their insertion. *)
Lemma putAll_below_bound entries : forall c,
  wfCache c ->
  NoDup (map keyOf entries) ->
  Forall (fun k => k <> EmptyString /\ ~ In k (map fst c)) (map keyOf entries) ->
  Map_size c + Z.of_nat (List.length entries) <= 1000 ->
  wfCache (putAll entries c)
  /\ map fst (putAll entries c) = map fst c ++ map keyOf entries.
Proof.
  induction entries as [|[[k rs] now] rest IH]; intros c Hwf Hnd Hall Hsz.
  - simpl. rewrite app_nil_r. now split.
  - simpl in Hnd, Hall. inversion Hnd as [|? ? Hk Hnd']; subst.
    inversion Hall as [|? ? [Hne Hnew] Hall']; subst.
    rewrite length_cons in Hsz.
    simpl. change (keyOf (k, rs, now)) with k.
    destruct (setCachedResult_cases k rs now c Hwf Hne)
      as [[Hin _]|[(_ & Hlt & Heq)|(_ & Hfull & _)]]; [tauto| |lia].
    assert (Hwf' := wfCache_set k rs now c Hwf Hne).
    rewrite Heq in *.
    destruct (IH (c ++ [(k, {| results := rs; timestamp := now |})]) Hwf' Hnd')
      as [Hwf'' Hkeys].
    + rewrite Forall_forall in *. intros x Hx. split; [now apply Hall'|].
      rewrite map_app, in_app_iff. simpl. intros [H|[H|[]]].
      * now apply (Hall' x Hx).
      * subst. tauto.
    + rewrite Map_size_app. change (Map_size [_]) with 1. lia.
    + split; [assumption|]. rewrite Hkeys, map_app, <- app_assoc. reflexivity.
Qed.

Lemma append_nonempty (a b : string) (c : ascii) :
  (a ++ String c b)%string <> EmptyString.
Proof. destruct a; discriminate. Qed.

(** Fingerprints are never empty, so the guard [if (firstKey)] of
    [setCachedResult] always lets the eviction through. *)
Lemma createCacheKey_nonempty h query docs service model key :
  createCacheKey h query docs service model = Ok key -> key <> EmptyString.
Proof.
  unfold createCacheKey.
  destruct (documentTexts h docs) as [texts|]; simpl; [|discriminate].
  destruct (JSON_stringify_array h texts) as [docsString|]; simpl; [|discriminate].
  intros [= <-]. apply append_nonempty.
Qed.

Lemma putAll_1001 entries :
  List.length entries = 1001%nat ->
  NoDup (map keyOf entries) ->
  Forall (fun k => k <> EmptyString) (map keyOf entries) ->
  Map_size (putAll entries []) = 1000
  /\ Map_get (hd EmptyString (map keyOf entries)) (putAll entries []) = None
  /\ forall k, In k (tl (map keyOf entries)) ->
       Map_get k (putAll entries []) <> None.
Proof.
  intros Hlen Hnd Hne.
  destruct (exists_last (l := entries)) as (l & [[kx rx] nx] & ->).
  { intros ->. discriminate. }
  rewrite length_app, length_cons, length_nil in Hlen.
  rewrite map_app in Hnd, Hne. simpl in Hnd, Hne.
  change (keyOf (kx, rx, nx)) with kx in Hnd, Hne.
  apply Forall_app in Hne. destruct Hne as [Hnel Hnex].
  inversion Hnex as [|? ? Hkx _]; subst.
  assert (Hndl : NoDup (map keyOf l)) by (now apply NoDup_app_remove_r in Hnd).
  assert (Hxl : ~ In kx (map keyOf l)).
  { intros Hin. apply NoDup_remove_2 in Hnd. rewrite app_nil_r in Hnd. tauto. }
  destruct (putAll_below_bound l [] wfCache_empty Hndl) as [Hwf Hkeys].
  { rewrite Forall_forall in *. intros x Hx. split; [now apply Hnel|tauto]. }
  { unfold Map_size. simpl. lia. }
  simpl in Hkeys.
  unfold putAll. rewrite fold_left_app. fold (putAll l []). simpl.
  destruct (setCachedResult_cases kx rx nx (putAll l []) Hwf Hkx)
    as [[Hin _]|[(_ & Hlt & _)|(_ & _ & k0 & e0 & t & Hc & ->)]].
  - rewrite Hkeys in Hin. tauto.
  - unfold Map_size in Hlt.
    rewrite <- (length_map fst), Hkeys, length_map in Hlt. lia.
  - rewrite Hc in Hkeys, Hwf. simpl in Hkeys.
    rewrite map_app, <- Hkeys. simpl.
    destruct Hwf as [Hnd0 _ Hsz0]. simpl in Hnd0.
    inversion Hnd0 as [|? ? Hk0 _]; subst.
    split; [|split].
    + unfold Map_size in *. rewrite length_app. simpl length.
      assert (List.length ((k0, e0) :: t) = 1000%nat).
      { rewrite <- (length_map fst). simpl map. rewrite Hkeys, length_map. lia. }
      rewrite length_cons in H. rewrite length_cons, length_nil. lia.
    + destruct (Map_get k0 (t ++ [(kx, {| results := rx; timestamp := nx |})]))
        eqn:G; [|reflexivity].
      exfalso. assert (Hin : In k0 (map fst (t ++ [(kx, {| results := rx; timestamp := nx |})])))
        by (apply Map_get_In; congruence).
      rewrite map_app, in_app_iff in Hin. simpl in Hin.
      destruct Hin as [Hin|[Hin|[]]]; [tauto|].
      subst kx. apply Hxl. rewrite <- Hkeys. now left.
    + intros k Hin. apply Map_get_In. rewrite map_app. exact Hin.
Qed.

Lemma keys_of_delete key (c : Cache) :
  map fst (Map_delete key c)
  = filter (fun k => negb (String.eqb key k)) (map fst c).
Proof.
  unfold Map_delete. induction c as [|[k e] t IH]; simpl; [reflexivity|].
  destruct (String.eqb key k); simpl; now rewrite IH.
Qed.

Lemma wfCache_delete key c : wfCache c -> wfCache (Map_delete key c).
Proof.
  intros [Hnd Hk Hsz]. split.
  - rewrite keys_of_delete. now apply NoDup_filter.
  - rewrite keys_of_delete. apply Forall_forall. intros k Hin.
    apply filter_In in Hin. rewrite Forall_forall in Hk. now apply Hk.
  - unfold Map_size, Map_delete in *.
    pose proof (filter_length_le (fun p => negb (String.eqb key (fst p))) c).
    lia.
Qed.

Lemma wfCache_getCachedResult key ttl now c :
  wfCache c -> wfCache (snd (getCachedResult key ttl now c)).
Proof.
  intros Hwf. unfold getCachedResult.
  destruct (Map_get key c) as [e|]; [|assumption].
  destruct (now - timestamp e <? ttl * 60 * 1000); [assumption|].
  now apply wfCache_delete.
Qed.

Lemma assoc_app_absent {A} k (l : list (string * A)) v :
  ~ In k (map fst l) -> assoc k (l ++ [(k, v)]) = Some v.
Proof.
  induction l as [|[k' v'] t IH]; simpl; intros Hn.
  - now rewrite String.eqb_refl.
  - destruct (String.eqb k k') eqn:E.
    + apply String.eqb_eq in E. subst. tauto.
    + apply IH. tauto.
Qed.

(** A put is found again under its key: the entry evicted, if any, is
    another one. *)
Lemma Map_get_setCachedResult key rs now c :
  wfCache c -> key <> EmptyString ->
  Map_get key (setCachedResult key rs now c)
  = Some {| results := rs; timestamp := now |}.
Proof.
  intros Hwf Hkey.
  destruct (setCachedResult_cases key rs now c Hwf Hkey)
    as [[Hin ->]|[(Hin & Hlt & ->)|(Hin & Heq & k0 & e0 & t & Hc & ->)]].
  - apply Map_get_set_same.
  - now apply assoc_app_absent.
  - apply assoc_app_absent. subst c. simpl in Hin. tauto.
Qed.

(** ** C4: threshold and order *)

Lemma geJS_true v threshold :
  geJS v threshold = true ->
  exists q, toNumber v = Some q /\ (threshold <= q)%Q.
Proof.
  unfold geJS. destruct (toNumber v) as [q|]; [|discriminate].
  intros H. exists q. split; [reflexivity|]. now apply Qle_bool_iff.
Qed.

Lemma passes_numeric threshold r : passes threshold r -> numericScore r.
Proof.
  intros (q & Hq & _). unfold numericScore. congruence.
Qed.

Lemma scoreGe_trans a b c : scoreGe a b -> scoreGe b c -> scoreGe a c.
Proof.
  unfold scoreGe.
  destruct (toNumber (_rerankScore a)), (toNumber (_rerankScore b)),
    (toNumber (_rerankScore c)); try tauto.
  intros H1 H2. now apply Qle_trans with q0.
Qed.

(** The comparator decides the order of two numeric scores. *)
Lemma sortsAfter_false x y :
  numericScore x -> numericScore y -> sortsAfter x y = false -> scoreGe x y.
Proof.
  unfold numericScore, sortsAfter, comparator, scoreGe.
  destruct (toNumber (_rerankScore x)) as [qx|]; [|congruence].
  destruct (toNumber (_rerankScore y)) as [qy|]; [|congruence].
  intros _ _ H. apply negb_false_iff, Qle_bool_iff in H. lra.
Qed.

Lemma sortsAfter_true x y : sortsAfter x y = true -> scoreGe y x.
Proof.
  unfold sortsAfter, comparator, scoreGe.
  destruct (toNumber (_rerankScore y)) as [qy|]; [|discriminate].
  destruct (toNumber (_rerankScore x)) as [qx|]; [|discriminate].
  intros H. apply negb_true_iff in H.
  destruct (Qlt_le_dec qx qy) as [Hlt|Hle]; [now apply Qlt_le_weak|].
  assert (Hb : Qle_bool (qy - qx) 0 = true) by (apply Qle_bool_iff; lra).
  congruence.
Qed.

Lemma insertSorted_perm x l : Permutation (insertSorted x l) (x :: l).
Proof.
  induction l as [|y t IH]; simpl; [constructor; constructor|].
  destruct (sortsAfter x y); [|reflexivity].
  rewrite IH. apply perm_swap.
Qed.

Lemma sortByScore_perm l : Permutation (sortByScore l) l.
Proof.
  induction l as [|x t IH]; simpl; [constructor|].
  rewrite insertSorted_perm. now constructor.
Qed.

Lemma insertSorted_sorted x l :
  numericScore x -> Forall numericScore l ->
  StronglySorted scoreGe l -> StronglySorted scoreGe (insertSorted x l).
Proof.
  intros Hx. induction l as [|y t IH]; intros Hnum Hs; simpl.
  - constructor; constructor.
  - inversion Hnum as [|? ? Hy Ht]; subst.
    inversion Hs as [|? ? Hst Hall]; subst.
    destruct (sortsAfter x y) eqn:E.
    + constructor; [now apply IH|].
      apply Forall_forall. intros z Hz.
      apply (Permutation_in _ (insertSorted_perm x t)) in Hz.
      destruct Hz as [<-|Hz]; [now apply sortsAfter_true|].
      rewrite Forall_forall in Hall. now apply Hall.
    + assert (Hxy : scoreGe x y) by now apply sortsAfter_false.
      constructor; [assumption|].
      constructor; [assumption|].
      apply Forall_forall. intros z Hz. apply scoreGe_trans with y; [assumption|].
      rewrite Forall_forall in Hall. now apply Hall.
Qed.

Lemma sortByScore_sorted l :
  Forall numericScore l -> StronglySorted scoreGe (sortByScore l).
Proof.
  induction l as [|x t IH]; intros Hnum; simpl; [constructor|].
  inversion Hnum; subst. apply insertSorted_sorted; [assumption| |now apply IH].
  apply Forall_forall. intros z Hz.
  apply (Permutation_in _ (sortByScore_perm t)) in Hz.
  rewrite Forall_forall in H2. now apply H2.
Qed.

Lemma rmap_Forall {A B} (f : A -> result B) (P : B -> Prop) l : forall out,
  rmap f l = Ok out ->
  (forall x y, In x l -> f x = Ok y -> P y) ->
  Forall P out.
Proof.
  induction l as [|x t IH]; simpl; intros out H HP.
  - injection H as <-. constructor.
  - destruct (f x) as [y|] eqn:Fx; simpl in H; [|discriminate].
    destruct (rmap f t) as [ys|] eqn:Ft; simpl in H; [|discriminate].
    injection H as <-. constructor.
    + apply (HP x); [now left|assumption].
    + apply IH; [reflexivity|]. intros x' y' Hin. apply HP. now right.
Qed.

Lemma toScored_score h docs inc r y :
  toScored h docs inc r = Ok y -> _rerankScore y = resolveScore r.
Proof.
  unfold toScored. destruct (inc && isNullish (docAt docs (index r))).
  - discriminate.
  - now intros [= <-].
Qed.

Lemma processRerankResults_ok h raw docs threshold inc out :
  processRerankResults h raw docs threshold inc = Ok out ->
  Forall (passes threshold) out /\ StronglySorted scoreGe out.
Proof.
  unfold processRerankResults. destruct raw as [| | |rs]; try discriminate.
  destruct (rmap _ _) as [mapped|] eqn:Hm; simpl; [|discriminate].
  intros [= <-].
  assert (Hp : Forall (passes threshold) mapped).
  { apply (rmap_Forall _ _ _ _ Hm). intros r y Hin Hy.
    apply filter_In in Hin. destruct Hin as [_ Hge].
    unfold passes. rewrite (toScored_score _ _ _ _ _ Hy).
    now apply geJS_true. }
  split.
  - apply Forall_forall. intros z Hz.
    apply (Permutation_in _ (sortByScore_perm mapped)) in Hz.
    rewrite Forall_forall in Hp. now apply Hp.
  - apply sortByScore_sorted. revert Hp. apply Forall_impl.
    intros a. apply passes_numeric.
Qed.






(** ** The course of a call *)

Lemma rerankWith_course h net service model enableCache cacheTtl buildRequest
  onError query docs topK threshold includeOriginalScores w r w' :
  rerankWith h net service model enableCache cacheTtl buildRequest onError
    query docs topK threshold includeOriginalScores w = (r, w')
  <-> course h net service model enableCache cacheTtl buildRequest onError
      query docs topK threshold includeOriginalScores w r w'.
Proof.
  unfold rerankWith, course, remoteCourse, processedReply, bind, ret, liftR,
    tryRethrow, getCached, setCached, httpRequest.
  destruct enableCache.
  - destruct (createCacheKey h query docs service model) as [k|e]; simpl.
    2:{ split; [intros [= <- <-]; now split | intros [-> ->]; reflexivity]. }
    destruct (getCachedResult k cacheTtl (clock w) (rerankCache w))
      as [[cached|] c1]; simpl.
    { split; [intros [= <- <-]; now split | intros [-> ->]; reflexivity]. }
    destruct (documentTexts h docs) as [texts|e]; simpl.
    2:{ split; [intros [= <- <-]; now split | intros [-> ->]; reflexivity]. }
    destruct (net (buildRequest texts)) as [[response|e] dt]; simpl.
    2:{ split; [intros [= <- <-]; now split | intros [-> ->]; reflexivity]. }
    destruct (resultsOf response) as [raw|e]; simpl.
    2:{ split; [intros [= <- <-]; now split | intros [-> ->]; reflexivity]. }
    destruct (processRerankResults h raw docs threshold includeOriginalScores)
      as [processed|e]; simpl.
    2:{ split; [intros [= <- <-]; now split | intros [-> ->]; reflexivity]. }
    split; [intros [= <- <-]; now split | intros [-> ->]; reflexivity].
  - destruct (documentTexts h docs) as [texts|e]; simpl.
    2:{ split; [intros [= <- <-]; now split | intros [-> ->]; reflexivity]. }
    destruct (net (buildRequest texts)) as [[response|e] dt]; simpl.
    2:{ split; [intros [= <- <-]; now split | intros [-> ->]; reflexivity]. }
    destruct (resultsOf response) as [raw|e]; simpl.
    2:{ split; [intros [= <- <-]; now split | intros [-> ->]; reflexivity]. }
    destruct (processRerankResults h raw docs threshold includeOriginalScores)
      as [processed|e]; simpl.
    2:{ split; [intros [= <- <-]; now split | intros [-> ->]; reflexivity]. }
    split; [intros [= <- <-]; now split | intros [-> ->]; reflexivity].
Qed.

(** Every adapter is [rerankWith] at its own service, model, request and
    error report; the Cohere adapter can fail before, on its
    credentials, without touching the world. *)
Lemma rerank_course a this h query docs topK threshold i inc w r w' :
  rerank a this h query docs topK threshold i inc w = (r, w') ->
  (a = Cohere /\ (exists e, r = Throw e) /\ w' = w)
  \/ exists buildRequest onError,
       course h (net this) (serviceOf a) (modelOf a (getNodeParameter this i))
         (p_enableCache (getNodeParameter this i))
         (p_cacheTtl (getNodeParameter this i))
         buildRequest onError query docs topK threshold inc w r w'.
Proof.
  destruct a; simpl.
  - unfold rerankWithOpenAI_plain. intros H. right.
    apply rerankWith_course in H. eauto.
  - unfold rerankWithOpenAI. intros H. right.
    apply rerankWith_course in H. eauto.
  - unfold rerankWithCohere, bind, liftR.
    destruct (match getCredentials this "cohereApi" with
              | Ok apiKey => Ok apiKey
              | Throw _ => getCredentials this "cohereRerankerApi"
              end) as [credentials|e].
    + intros H. right. apply rerankWith_course in H. eauto.
    + intros [= <- <-]. left. eauto.
Qed.






Lemma processedReply_ok h docs threshold inc reply out :
  processedReply h docs threshold inc reply = Ok out ->
  Forall (passes threshold) out /\ StronglySorted scoreGe out.
Proof.
  unfold processedReply. destruct reply as [response|e]; [|discriminate].
  destruct (resultsOf response) as [raw|e]; simpl; [|discriminate].
  apply processRerankResults_ok.
Qed.



(** ** C6 and C1: what a call does to the cache *)

Lemma newEffects_app w w' evs :
  effects w' = effects w ++ evs -> newEffects w w' = evs.
Proof.
  unfold newEffects. intros ->.
  induction (effects w) as [|x t IH]; simpl; [reflexivity|exact IH].
Qed.


Lemma course_wf h net service model enableCache cacheTtl buildRequest
    onError query docs topK threshold inc w r w' :
  course h net service model enableCache cacheTtl buildRequest onError
    query docs topK threshold inc w r w' ->
  wfCache (rerankCache w) -> wfCache (rerankCache w').
Proof.
  intros Hc Hwf.
  assert (Hremote : forall key w1,
    wfCache (rerankCache w1) ->
    (forall k, key = Some k -> k <> EmptyString) ->
    remoteCourse h net buildRequest onError docs threshold inc key w1 r w' ->
    wfCache (rerankCache w')).
  { intros key w1 Hwf1 Hkey. unfold remoteCourse.
    destruct (documentTexts h docs) as [texts|e]; [|now intros [_ ->]].
    destruct (processedReply _ _ _ _ _) as [processed|e]; [|now intros [_ ->]].
    intros [_ ->]. destruct key as [k|]; simpl; [|assumption].
    apply wfCache_set; [assumption|now apply Hkey]. }
  unfold course in Hc. destruct enableCache.
  - destruct (createCacheKey h query docs service model) as [k|e] eqn:Hk.
    2:{ now destruct Hc as [_ ->]. }
    assert (Hwf1 := wfCache_getCachedResult k cacheTtl (clock w) _ Hwf).
    destruct (fst (getCachedResult k cacheTtl (clock w) (rerankCache w))).
    + now destruct Hc as [_ ->].
    + refine (Hremote (Some k) _ _ _ Hc); [exact Hwf1|].
      intros k' [= <-]. now apply createCacheKey_nonempty in Hk.
  - refine (Hremote None w Hwf _ Hc). discriminate.
Qed.

(** With the cache enabled, a call that sends a request and succeeds
    leaves, under its fingerprint, the very list it returns: the list
    [processRerankResults] has filtered by the threshold of this call. *)
Lemma miss_stores_returned_list a this h query docs topK threshold i inc w out w' :
  wfCache (rerankCache w) ->
  p_enableCache (getNodeParameter this i) = true ->
  rerank a this h query docs topK threshold i inc w = (Ok out, w') ->
  requestsOf (newEffects w w') <> [] ->
  exists k,
    createCacheKey h query docs (serviceOf a)
      (modelOf a (getNodeParameter this i)) = Ok k
    /\ option_map results (Map_get k (rerankCache w')) = Some out
    /\ Forall (passes threshold) out.
Proof.
  intros Hwf Hen H Hreq. apply rerank_course in H.
  destruct H as [(_ & [e He] & _)|(br & oe & Hc)]; [discriminate|].
  rewrite Hen in Hc. unfold course in Hc.
  destruct (createCacheKey _ _ _ _ _) as [k|e] eqn:Hk; [|now destruct Hc].
  exists k. split; [reflexivity|].
  assert (Hwf1 := wfCache_getCachedResult k
                    (p_cacheTtl (getNodeParameter this i)) (clock w) _ Hwf).
  destruct (fst (getCachedResult k _ (clock w) (rerankCache w))) as [cached|].
  - destruct Hc as [_ ->]. exfalso. apply Hreq.
    erewrite newEffects_app; [|simpl; reflexivity]. reflexivity.
  - unfold remoteCourse in Hc.
    destruct (documentTexts h docs) as [texts|e]; [|now destruct Hc].
    destruct (processedReply _ _ _ _ _) as [processed|e] eqn:Hp;
      [|now destruct Hc].
    destruct Hc as [[= <-] ->]. simpl.
    rewrite Map_get_setCachedResult;
      [|assumption|now apply createCacheKey_nonempty in Hk].
    split; [reflexivity|]. now apply processedReply_ok in Hp.
Qed.

(** C6.  A put into the cache (whose keys are fingerprints, hence not
    empty) leaves at most 1000 entries; when the insertion takes the size
    past 1000, the entry first in insertion order, and only it, is
    removed, every other entry keeping its place before the new one.
    Every call of an adapter keeps the cache within these bounds.  And
    1001 puts of distinct fingerprints into the empty cache leave exactly
    1000 entries, without the first fingerprint and with all the
    others. *)
Theorem cache_size_bound :
  (forall key rs now c,
     wfCache c -> key <> EmptyString ->
     let e := {| results := rs; timestamp := now |} in
     let c' := setCachedResult key rs now c in
     wfCache c' /\ Map_size c' <= 1000
     /\ (Map_size (Map_set key e c) > 1000 ->
         exists k0 e0 t, c = (k0, e0) :: t /\ c' = t ++ [(key, e)])
     /\ (Map_size (Map_set key e c) <= 1000 -> c' = Map_set key e c))
  /\
  (forall a this h query docs topK threshold i inc w r w',
     wfCache (rerankCache w) ->
     rerank a this h query docs topK threshold i inc w = (r, w') ->
     wfCache (rerankCache w') /\ Map_size (rerankCache w') <= 1000)
  /\
  (forall entries,
     List.length entries = 1001%nat ->
     NoDup (map keyOf entries) ->
     Forall (fun k => k <> EmptyString) (map keyOf entries) ->
     Map_size (putAll entries []) = 1000
     /\ Map_get (hd EmptyString (map keyOf entries)) (putAll entries []) = None
     /\ forall k, In k (tl (map keyOf entries)) ->
          Map_get k (putAll entries []) <> None).
Proof.
  split; [|split; [|exact putAll_1001]].
  - intros key rs now c Hwf Hkey e c'.
    assert (Hwf' : wfCache c') by (now apply wfCache_set).
    split; [assumption|]. split; [apply Hwf'|].
    destruct (setCachedResult_cases key rs now c Hwf Hkey)
      as [[Hin Heq]|[(Hin & Hlt & Heq)|(Hin & Hfull & k0 & e0 & t & Hc & Heq)]];
      fold e in Heq; fold c' in Heq.
    + split; [|intros _; exact Heq].
      rewrite Map_size_set_present by assumption. destruct Hwf. lia.
    + rewrite (Map_set_absent key e c Hin), Map_size_app.
      change (Map_size [_]) with 1. split; [lia|intros _; exact Heq].
    + rewrite (Map_set_absent key e c Hin), Map_size_app.
      change (Map_size [_]) with 1. split; [|lia].
      intros _. exists k0, e0, t. now split.
  - intros a this h query docs topK threshold i inc w r w' Hwf H.
    assert (Hwf' : wfCache (rerankCache w')).
    { apply rerank_course in H.
      destruct H as [(_ & _ & ->)|(br & oe & Hc)]; [assumption|].
      exact (course_wf _ _ _ _ _ _ _ _ _ _ _ _ _ _ _ _ Hc Hwf). }
    split; [assumption|apply Hwf'].
Qed.

(** ** C9: failures and the cache *)

(** A lookup leaves the cache as it is or removes the expired entry of
    its key. *)
Lemma getCachedResult_cache key ttl now c :
  snd (getCachedResult key ttl now c) = c
  \/ exists e, Map_get key c = Some e
       /\ ~ now - timestamp e < ttl * 60000
       /\ fst (getCachedResult key ttl now c) = None
       /\ snd (getCachedResult key ttl now c) = Map_delete key c.
Proof.
  unfold getCachedResult.
  destruct (Map_get key c) as [e|]; [|now left].
  destruct (now - timestamp e <? ttl * 60 * 1000) eqn:E; [now left|].
  right. exists e. apply Z.ltb_nlt in E. repeat split. lia.
Qed.

Lemma course_failure h net service model enableCache cacheTtl buildRequest
    onError query docs topK threshold inc w e w' :
  course h net service model enableCache cacheTtl buildRequest onError
    query docs topK threshold inc w (Throw e) w' ->
  storedKeys (newEffects w w') = []
  /\ (rerankCache w' = rerankCache w
      \/ enableCache = true
         /\ exists k entry,
              createCacheKey h query docs service model = Ok k
              /\ Map_get k (rerankCache w) = Some entry
              /\ ~ clock w - timestamp entry < cacheTtl * 60000
              /\ rerankCache w' = Map_delete k (rerankCache w)).
Proof.
  assert (Hremote : forall key w1,
    remoteCourse h net buildRequest onError docs threshold inc key w1
      (Throw e) w' ->
    rerankCache w' = rerankCache w1
    /\ exists evs, effects w' = effects w1 ++ evs /\ storedKeys evs = []).
  { intros key w1. unfold remoteCourse.
    destruct (documentTexts h docs) as [texts|e0].
    2:{ intros [_ ->]. split; [reflexivity|].
        exists []. now rewrite app_nil_r. }
    destruct (processedReply _ _ _ _ _) as [processed|e0].
    { intros [[=] _]. }
    intros [_ ->]. simpl. split; [reflexivity|]. eauto. }
  unfold course. destruct enableCache.
  - destruct (createCacheKey h query docs service model) as [k|e0] eqn:Hk.
    2:{ intros [_ ->]. split; [|now left].
        apply (f_equal storedKeys (newEffects_app w w [] (eq_sym (app_nil_r _)))). }
    destruct (fst (getCachedResult k cacheTtl (clock w) (rerankCache w)))
      as [cached|] eqn:Hhit.
    { intros [[=] _]. }
    intros Hc. apply Hremote in Hc. simpl in Hc.
    destruct Hc as (Hcache & evs & Hevs & Hstored). split.
    + rewrite (newEffects_app w w' (EvGetCached k :: evs)).
      * exact Hstored.
      * rewrite Hevs, <- app_assoc. reflexivity.
    + rewrite Hcache.
      destruct (getCachedResult_cache k cacheTtl (clock w) (rerankCache w))
        as [Hsame|(entry & Hget & Hexp & _ & Hdel)]; [now left|].
      right. split; [reflexivity|]. exists k, entry. auto.
  - intros Hc. apply Hremote in Hc.
    destruct Hc as (Hcache & evs & Hevs & Hstored). split; [|now left].
    now rewrite (newEffects_app w w' evs Hevs).
Qed.

(** The log of a call: the lookup, if the cache is enabled and the
    documents can be fingerprinted; then at most one request, built from
    the document texts; then, only after a success and under the same
    key, the store. *)
Lemma course_log h net service model enableCache cacheTtl buildRequest
    onError query docs topK threshold inc w r w' :
  course h net service model enableCache cacheTtl buildRequest onError
    query docs topK threshold inc w r w' ->
  exists lookups reqs stores,
    effects w' = effects w ++
      map EvGetCached lookups ++ map EvHttpRequest reqs ++ map EvSetCached stores
    /\ (forall k, In k lookups \/ In k stores ->
          enableCache = true
          /\ createCacheKey h query docs service model = Ok k)
    /\ (enableCache = true ->
        forall k, createCacheKey h query docs service model = Ok k ->
          lookups = [k])
    /\ (forall req, In req reqs ->
          exists texts, documentTexts h docs = Ok texts
                        /\ req = buildRequest texts)
    /\ (stores <> [] -> exists out, r = Ok out).
Proof.
  assert (Hremote : forall key w1,
    remoteCourse h net buildRequest onError docs threshold inc key w1 r w' ->
    exists reqs stores,
      effects w' = effects w1 ++ map EvHttpRequest reqs ++ map EvSetCached stores
      /\ (forall k, In k stores -> key = Some k)
      /\ (forall req, In req reqs ->
            exists texts, documentTexts h docs = Ok texts
                          /\ req = buildRequest texts)
      /\ (stores <> [] -> exists out, r = Ok out)).
  { intros key w1. unfold remoteCourse.
    destruct (documentTexts h docs) as [texts|e0].
    2:{ intros [_ ->]. exists [], []. simpl. rewrite app_nil_r.
        repeat split; try tauto. }
    destruct (processedReply _ _ _ _ _) as [processed|e0].
    2:{ intros [_ ->]. exists [buildRequest texts], []. simpl.
        repeat split; try tauto.
        intros req [<-|[]]. eauto. }
    intros [-> ->]. destruct key as [k|]; simpl.
    - exists [buildRequest texts], [k]. simpl. rewrite <- app_assoc.
      repeat split; eauto.
      + intros k' [<-|[]]. reflexivity.
      + intros req [<-|[]]. eauto.
    - exists [buildRequest texts], []. simpl.
      repeat split; eauto; try tauto.
      intros req [<-|[]]. eauto. }
  unfold course. destruct enableCache.
  - destruct (createCacheKey h query docs service model) as [k|e0] eqn:Hk.
    2:{ intros [_ ->]. exists [], [], []. simpl. rewrite app_nil_r.
        repeat split; try tauto; try discriminate. }
    destruct (fst (getCachedResult k cacheTtl (clock w) (rerankCache w)))
      as [cached|].
    + intros [-> ->]. exists [k], [], []. simpl.
      repeat split; try tauto; eauto.
      * destruct H as [[<-|[]]|[]]. reflexivity.
      * intros _ k' [= <-]. reflexivity.
    + intros Hc. apply Hremote in Hc.
      destruct Hc as (reqs & stores & Heff & Hst & Hreq & Hok).
      exists [k], reqs, stores. simpl in Heff. rewrite Heff, <- app_assoc.
      repeat split; try assumption; try tauto.
      * destruct H as [[<-|[]]|H]; [reflexivity|].
        apply Hst in H. now injection H as <-.
      * intros _ k' [= <-]. reflexivity.
  - intros Hc. apply Hremote in Hc.
    destruct Hc as (reqs & stores & Heff & Hst & Hreq & Hok).
    exists [], reqs, stores. simpl. repeat split; try assumption.
    + destruct H as [[]|H]. apply Hst in H. discriminate.
    + destruct H as [[]|H]. apply Hst in H. discriminate.
    + discriminate.
Qed.

Lemma usedKeys_log lookups reqs stores :
  usedKeys (map EvGetCached lookups ++ map EvHttpRequest reqs
            ++ map EvSetCached stores) = lookups ++ stores.
Proof.
  unfold usedKeys. rewrite !flat_map_app. 
  assert (H1 : forall l, flat_map (fun ev => match ev with
                      | EvGetCached k | EvSetCached k => [k]
                      | EvHttpRequest _ => []
                      end) (map EvGetCached l) = l)
    by (induction l; simpl; congruence).
  assert (H2 : forall l, flat_map (fun ev => match ev with
                      | EvGetCached k | EvSetCached k => [k]
                      | EvHttpRequest _ => []
                      end) (map EvHttpRequest l) = [])
    by (induction l; simpl; congruence).
  assert (H3 : forall l, flat_map (fun ev => match ev with
                      | EvGetCached k | EvSetCached k => [k]
                      | EvHttpRequest _ => []
                      end) (map EvSetCached l) = l)
    by (induction l; simpl; congruence).
  now rewrite H1, H2, H3.
Qed.

Lemma requestsOf_log lookups reqs stores :
  requestsOf (map EvGetCached lookups ++ map EvHttpRequest reqs
              ++ map EvSetCached stores) = reqs.
Proof.
  unfold requestsOf. rewrite !flat_map_app.
  assert (H1 : forall l, flat_map (fun ev => match ev with
                      | EvHttpRequest req => [req]
                      | _ => []
                      end) (map EvGetCached l) = [])
    by (induction l; simpl; congruence).
  assert (H2 : forall l, flat_map (fun ev => match ev with
                      | EvHttpRequest req => [req]
                      | _ => []
                      end) (map EvHttpRequest l) = l)
    by (induction l; simpl; congruence).
  assert (H3 : forall l, flat_map (fun ev => match ev with
                      | EvHttpRequest req => [req]
                      | _ => []
                      end) (map EvSetCached l) = [])
    by (induction l; simpl; congruence).
  now rewrite H1, H2, H3, app_nil_r.
Qed.


(** C9 as stated fails: with the cache enabled, a call whose lookup meets
    the expired entry of its own key deletes it, and then fails on the
    refused request; the cache has changed. *)
Lemma failed_call_can_change_cache :
  ~ (forall a this h query docs topK threshold i inc w e w',
       rerank a this h query docs topK threshold i inc w = (Throw e, w') ->
       rerankCache w' = rerankCache w).
Proof.
  intros H.
  assert (Hrun :
    rerank OpenAITemplates (demoContext (demoParams true false) refusingNet)
      demoHeap demoQuery demoDocs 10 0%Q 0%nat false expiredWorld
    = (Throw refusedError,
       snd (rerank OpenAITemplates
              (demoContext (demoParams true false) refusingNet)
              demoHeap demoQuery demoDocs 10 0%Q 0%nat false expiredWorld)))
    by (vm_compute; reflexivity).
  apply H in Hrun. vm_compute in Hrun. discriminate Hrun.
Qed.

(** C9, amended.  A call that fails, on any adapter, stores nothing; it
    leaves the cache as it was, except that, with the cache enabled, the
    lookup it starts with has removed the entry of its own fingerprint
    when that entry had expired. *)
Theorem failed_call_stores_nothing
    a this h query docs topK threshold i inc w e w' :
  rerank a this h query docs topK threshold i inc w = (Throw e, w') ->
  storedKeys (newEffects w w') = []
  /\ (rerankCache w' = rerankCache w
      \/ p_enableCache (getNodeParameter this i) = true
         /\ exists k entry,
              createCacheKey h query docs (serviceOf a)
                (modelOf a (getNodeParameter this i)) = Ok k
              /\ Map_get k (rerankCache w) = Some entry
              /\ ~ clock w - timestamp entry
                   < p_cacheTtl (getNodeParameter this i) * 60000
              /\ rerankCache w' = Map_delete k (rerankCache w)).
Proof.
  intros H. apply rerank_course in H.
  destruct H as [(_ & _ & ->)|(br & oe & Hc)].
  - split; [|now left].
    apply (f_equal storedKeys (newEffects_app w w [] (eq_sym (app_nil_r _)))).
  - exact (course_failure _ _ _ _ _ _ _ _ _ _ _ _ _ _ _ _ Hc).
Qed.

Lemma failed_call_stores_nothing_witness :
  let this := demoContext (demoParams true false) refusingNet in
  let w' := snd (rerank OpenAITemplates this demoHeap demoQuery demoDocs
                   10 0%Q 0%nat false expiredWorld) in
  rerank OpenAITemplates this demoHeap demoQuery demoDocs 10 0%Q 0%nat false
    expiredWorld = (Throw refusedError, w')
  /\ storedKeys (newEffects expiredWorld w') = []
  /\ (rerankCache w' = rerankCache expiredWorld
      \/ p_enableCache (getNodeParameter this 0%nat) = true
         /\ exists k entry,
              createCacheKey demoHeap demoQuery demoDocs
                (serviceOf OpenAITemplates)
                (modelOf OpenAITemplates (getNodeParameter this 0%nat)) = Ok k
              /\ Map_get k (rerankCache expiredWorld) = Some entry
              /\ ~ clock expiredWorld - timestamp entry
                   < p_cacheTtl (getNodeParameter this 0%nat) * 60000
              /\ rerankCache w' = Map_delete k (rerankCache expiredWorld)).
Proof.
  intros this w'.
  assert (Hrun : rerank OpenAITemplates this demoHeap demoQuery demoDocs
                   10 0%Q 0%nat false expiredWorld = (Throw refusedError, w'))
    by (vm_compute; reflexivity).
  split; [exact Hrun|].
  exact (failed_call_stores_nothing OpenAITemplates this demoHeap demoQuery
           demoDocs 10 0%Q 0%nat false expiredWorld refusedError w' Hrun).
Defined.

(** ** C8: the fingerprint and the templates *)




(** ** C1: what the cache holds *)

(** C1 (the code departs from it).  With the cache enabled, on every
    adapter, a first call with threshold 0.8 gets three candidates from
    the service, returns the one that passes and stores that one-element
    list, not the three candidates.  A later call with threshold 0.3 is
    served from that entry, without a request, and returns one result,
    where the same call answered by the service returns two. *)
Theorem cache_holds_threshold_filtered_list :
  forall a,
  let this := demoContext (demoParams true false) respondingNet in
  let call threshold :=
    rerank a this demoHeap demoQuery demoDocs 10 threshold 0%nat false in
  let w1 := snd (call (8 # 10)%Q startWorld) in
  indicesOf (fst (call (8 # 10)%Q startWorld)) = Some [1]
  /\ map (fun e => map _originalIndex (results (snd e))) (rerankCache w1) = [[1]]
  /\ requestsOf (newEffects w1 (snd (call (3 # 10)%Q w1))) = []
  /\ indicesOf (fst (call (3 # 10)%Q w1)) = Some [1]
  /\ indicesOf (fst (call (3 # 10)%Q startWorld)) = Some [1; 0].
Proof.
  intros a this call w1. destruct a; repeat split; vm_compute; reflexivity.
Qed.

(** ** C2: [topK] *)

Lemma slice0_length {A} topK (l : list A) :
  0 <= topK -> Z.of_nat (List.length (slice0 topK l)) <= topK.
Proof.
  intros Hk. unfold slice0.
  replace (topK <? 0) with false by (symmetry; apply Z.ltb_ge; lia).
  rewrite length_firstn. lia.
Qed.

(** C2 (the code departs from it).  A list served from the cache is cut
    at a non-negative [topK]; a fresh list is not cut: with [topK] 1, a
    request that asks for [top_n] 1 and a service that answers with three
    entries, every adapter returns three results, and so does the flow
    node. *)
Theorem fresh_results_exceed_topK :
  let this := demoContext (withQueryTopK demoQuery 1 (demoParams false false))
                respondingNet in
  let run a := rerank a this demoHeap demoQuery demoDocs 1 0%Q 0%nat false
                 startWorld in
  let flow := executeItem this demoHeap 0 (itemWith demoDocs) startWorld in
  (forall cached topK threshold, 0 <= topK ->
     Z.of_nat (List.length
       (slice0 topK
          (filter (fun doc : scored => geJS (_rerankScore doc) threshold) cached)))
     <= topK)
  /\ (forall a,
        map (fun req => top_n (body req))
          (requestsOf (newEffects startWorld (snd (run a)))) = [1]
        /\ indicesOf (fst (run a)) = Some [1; 0; 2])
  /\ match fst flow with
     | Ok out => rerankedCount out
     | Throw _ => -1
     end = 3.
Proof.
  intros this run flow.
  split; [intros; now apply slice0_length|].
  split; [intros a; destruct a; split; vm_compute; reflexivity|].
  vm_compute; reflexivity.
Qed.

(** ** C7: the resolved score *)

Lemma resolveScore_default r threshold :
  truthyS (relevance_score r) = false -> truthyS (score r) = false ->
  resolveScore r = SNum 0 /\ geJS (resolveScore r) threshold = Qle_bool threshold 0.
Proof.
  intros H1 H2. unfold resolveScore. rewrite H1, H2. now split.
Qed.

(** C7 (the code departs from it on non-numeric scores).  The resolved
    score is [relevance_score] if that is truthy, else [score] if that is
    truthy, else 0, and an entry resolved to 0 is kept exactly under a
    threshold that is at most 0.  But a truthy value that is no number is
    not turned into 0: the text "invalid" stays the score, compares as
    [NaN] and is dropped under every threshold, 0 and below included;
    [true] stays the score, counts as 1 and is kept under the threshold
    0.5. *)
Theorem nonnumeric_score_is_not_zero :
  (forall r threshold,
     truthyS (relevance_score r) = false -> truthyS (score r) = false ->
     resolveScore r = SNum 0
     /\ geJS (resolveScore r) threshold = Qle_bool threshold 0)
  /\ (forall r, truthyS (relevance_score r) = true ->
        resolveScore r = relevance_score r)
  /\ (forall r, truthyS (relevance_score r) = false -> truthyS (score r) = true ->
        resolveScore r = score r)
  /\ resolveScore (scoredEntry 0 (SStr "invalid")) = SStr "invalid"
  /\ processRerankResults demoHeap (RArray [scoredEntry 0 (SStr "invalid")])
       demoDocs 0%Q false = Ok []
  /\ processRerankResults demoHeap (RArray [scoredEntry 0 (SStr "invalid")])
       demoDocs (-1)%Q false = Ok []
  /\ indicesOf (processRerankResults demoHeap (RArray [scoredEntry 0 SUndefined])
                  demoDocs 0%Q false) = Some [0]
  /\ indicesOf (processRerankResults demoHeap (RArray [scoredEntry 0 (SBool true)])
                  demoDocs (5 # 10)%Q false) = Some [0].
Proof.
  split; [exact resolveScore_default|].
  split; [intros r H; unfold resolveScore; now rewrite H|].
  split; [intros r H1 H2; unfold resolveScore; now rewrite H1, H2|].
  repeat split; vm_compute; reflexivity.
Qed.

(** ** C10: an item without documents *)

(** C10 as stated fails: the query is checked before the documents, so an
    item whose documents are an empty array makes the node throw, not put
    out an item, when the query of the item is empty. *)
Lemma empty_documents_with_empty_query_throw :
  ~ (forall this h i it w,
       assoc (p_documentsField (getNodeParameter this i)) (json it)
         = Some (MArray []) ->
       exists out, executeItem this h i it w = (Ok out, w)
                   /\ rerankedDocs out = []
                   /\ originalCount out = 0 /\ rerankedCount out = 0).
Proof.
  intros H.
  destruct (H (demoContext (withQueryTopK EmptyString 10 (demoParams false false))
                 respondingNet)
              demoHeap 0%nat (itemWith []) startWorld eq_refl)
    as (out & Hrun & _).
  vm_compute in Hrun. discriminate Hrun.
Qed.

(** C10, amended.  For an item whose query is not blank and whose
    documents member is an empty array, the node puts out the item with
    [rerankedDocs] empty and both counts 0, and the world is as before:
    nothing was looked up or stored in the cache and no request was
    sent. *)
Theorem empty_documents_short_circuit this h i it w :
  isBlank (p_query (getNodeParameter this i)) = false ->
  assoc (p_documentsField (getNodeParameter this i)) (json it)
    = Some (MArray []) ->
  executeItem this h i it w
    = (Ok (emptyOutput it (p_query (getNodeParameter this i))), w).
Proof.
  intros Hq Hdocs. unfold executeItem, executeItemBody, tryRethrow.
  assert (Hne : String.eqb (p_query (getNodeParameter this i)) EmptyString = false).
  { destruct (p_query (getNodeParameter this i)); [discriminate Hq|reflexivity]. }
  rewrite Hne, Hq, Hdocs. reflexivity.
Qed.

Lemma empty_documents_short_circuit_witness :
  let this := demoContext (demoParams true false) respondingNet in
  isBlank (p_query (getNodeParameter this 0%nat)) = false
  /\ assoc (p_documentsField (getNodeParameter this 0%nat)) (json (itemWith []))
       = Some (MArray [])
  /\ executeItem this demoHeap 0 (itemWith []) startWorld
       = (Ok (emptyOutput (itemWith []) demoQuery), startWorld).
Proof.
  intros this.
  split; [reflexivity|]. split; [reflexivity|].
  exact (empty_documents_short_circuit this demoHeap 0%nat (itemWith [])
           startWorld eq_refl eq_refl).
Defined.

(** ** C3: text extraction *)

Lemma serProps_errors (E : exn -> Prop) go props :
  (forall v, In v (map snd props) -> forall e, go v = Throw e -> E e) ->
  forall e, serProps go props = Throw e -> E e.
Proof.
  induction props as [|[k v] t IH]; simpl; intros Hgo e; [discriminate|].
  destruct (go v) as [o|e0] eqn:Hv; simpl.
  - destruct (serProps go t) as [rest|e1] eqn:Ht; simpl.
    + destruct o; discriminate.
    + intros [= <-]. apply IH; [|reflexivity]. intros v' Hin. apply Hgo. now right.
  - intros [= <-]. apply (Hgo v); [now left|assumption].
Qed.

Lemma serElems_errors (E : exn -> Prop) go elems :
  (forall v, In v elems -> forall e, go v = Throw e -> E e) ->
  forall e, serElems go elems = Throw e -> E e.
Proof.
  unfold serElems.
  induction elems as [|v t IH]; simpl; intros Hgo e; [discriminate|].
  destruct (go v) as [o|e0] eqn:Hv; simpl.
  - destruct (rmap _ t) as [rest|e1] eqn:Ht; simpl; [discriminate|].
    intros [= <-]. apply IH; [|reflexivity]. intros v' Hin. apply Hgo. now right.
  - intros [= <-]. apply (Hgo v); [now left|assumption].
Qed.

Lemma distinct_below_bound (l : list nat) n :
  NoDup l -> (forall x, In x l -> (x < n)%nat) -> (List.length l <= n)%nat.
Proof.
  intros Hnd Hlt. rewrite <- (length_seq n 0).
  apply NoDup_incl_length; [assumption|].
  intros x Hx. apply in_seq. specialize (Hlt x Hx). lia.
Qed.

(** The errors of [serialize], for an invariant [inv] of the stack and
    the value that holds at the start and is kept when the serialiser
    descends into an object: only the circular-structure error, where the
    invariant allows it, can come out.  The budget is never used up, as
    the stack holds distinct objects of the heap. *)
Lemma serialize_errors h (E : exn -> Prop) (inv : list nat -> value -> Prop) :
  (forall stack a, inv stack (VRef a) -> In a stack -> E cyclicError) ->
  (forall stack a c v, inv stack (VRef a) -> nth_error h a = Some c ->
     ~ In a stack -> In v (valuesOf c) -> inv (a :: stack) v) ->
  forall fuel stack v,
    NoDup stack -> (forall s, In s stack -> (s < List.length h)%nat) ->
    (List.length h <= fuel + List.length stack)%nat ->
    inv stack v ->
    forall e, serialize fuel h stack v = Throw e -> E e.
Proof.
  intros Hcyc Hstep.
  assert (Hscalar : forall fuel stack v e,
    (forall a, v <> VRef a) -> serialize fuel h stack v = Throw e -> E e).
  { intros fuel stack v e Hv.
    destruct fuel, v as [| |[|]| | |a]; simpl; try discriminate;
      now destruct (Hv a). }
  induction fuel as [|fuel IH]; intros stack v Hnd Hval Hfuel Hinv e;
    (destruct v as [| |b|n|s|a];
     [apply Hscalar; discriminate ..|]); simpl.
  - destruct (nth_error h a) as [c|] eqn:Ha; [|discriminate].
    destruct (existsb (Nat.eqb a) stack) eqn:Hex.
    + intros [= <-]. apply existsb_exists in Hex.
      destruct Hex as (x & Hx & Heq). apply Nat.eqb_eq in Heq. subst x.
      now apply (Hcyc stack a).
    + exfalso.
      assert (Hna : ~ In a stack).
      { intros Hin. apply Bool.not_true_iff_false in Hex. apply Hex.
        apply existsb_exists. exists a. split; [assumption|apply Nat.eqb_refl]. }
      assert (Hlen : (List.length (a :: stack) <= List.length h)%nat).
      { apply distinct_below_bound; [now constructor|].
        intros x [<-|Hx]; [|now apply Hval].
        apply nth_error_Some. congruence. }
      rewrite length_cons in Hlen. lia.
  - destruct (nth_error h a) as [c|] eqn:Ha; [|discriminate].
    destruct (existsb (Nat.eqb a) stack) eqn:Hex.
    + intros [= <-]. apply existsb_exists in Hex.
      destruct Hex as (x & Hx & Heq). apply Nat.eqb_eq in Heq. subst x.
      now apply (Hcyc stack a).
    + assert (Hna : ~ In a stack).
      { intros Hin. apply Bool.not_true_iff_false in Hex. apply Hex.
        apply existsb_exists. exists a. split; [assumption|apply Nat.eqb_refl]. }
      assert (Hgo : forall v, In v (valuesOf c) ->
                forall e, serialize fuel h (a :: stack) v = Throw e -> E e).
      { intros v Hv. apply IH.
        - now constructor.
        - intros x [<-|Hx]; [|now apply Hval].
          apply nth_error_Some. congruence.
        - rewrite length_cons. lia.
        - now apply (Hstep stack a c). }
      destruct c as [props|elems]; simpl in Hgo.
      * destruct (serProps _ props) as [ms|e0] eqn:Hp; simpl; [discriminate|].
        intros [= <-]. now apply (serProps_errors E _ props Hgo).
      * destruct (serElems _ elems) as [ms|e0] eqn:Hp; simpl; [discriminate|].
        intros [= <-]. now apply (serElems_errors E _ elems Hgo).
Qed.

(** [JSON.stringify] always comes to an end within its budget, with a
    text, with [undefined] or with the circular-structure error. *)
Lemma JSON_stringify_total h v : JSON_stringify h v <> Throw budgetExhausted.
Proof.
  intros H. unfold JSON_stringify in H.
  refine (serialize_errors h (fun e => e <> budgetExhausted) (fun _ _ => True)
            _ _ (List.length h) [] v _ _ _ I budgetExhausted H eq_refl).
  - intros stack a _ _. discriminate.
  - trivial.
  - constructor.
  - intros s [].
  - simpl. lia.
Qed.


(** [JSON.stringify] gives [undefined] for [undefined] only (and for an
    address outside the heap, which no document is). *)
Lemma JSON_stringify_undefined h v :
  JSON_stringify h v = Ok None ->
  v = VUndefined \/ exists a, v = VRef a /\ nth_error h a = None.
Proof.
  unfold JSON_stringify. generalize (List.length h) as fuel. intros fuel.
  destruct v as [| |[|]|n|s|a]; destruct fuel; simpl; try discriminate; auto.
  - destruct (nth_error h a) as [c|] eqn:Ha; [discriminate|eauto].
  - destruct (nth_error h a) as [c|] eqn:Ha; [|eauto].
    destruct c as [props|elems].
    + destruct (serProps _ _); discriminate.
    + destruct (serElems _ _); discriminate.
Qed.




(** ** C5, C6 and C4 on the worked configuration *)

(** C5 on the entry of the first call of the worked configuration: it is
    served four minutes later and dropped six minutes later. *)
Lemma getCachedResult_spec_witness :
  let c := rerankCache expiredWorld in
  let key := "openai-compatible:test-model:oo73dx:u9r09r"%string in
  option_map (fun e => map _originalIndex (results e)) (Map_get key c)
    = Some [1; 0; 2]
  /\ option_map (map _originalIndex)
       (fst (getCachedResult key 5 (1000120 + 240000) c)) = Some [1; 0; 2]
  /\ getCachedResult key 5 (clock expiredWorld) c = (None, [])
  /\ match Map_get key c with
     | Some e =>
         (clock expiredWorld - timestamp e < 5 * 60000 ->
          getCachedResult key 5 (clock expiredWorld) c = (Some (results e), c))
         /\
         (~ clock expiredWorld - timestamp e < 5 * 60000 ->
          getCachedResult key 5 (clock expiredWorld) c = (None, Map_delete key c)
          /\ Map_get key (Map_delete key c) = None
          /\ forall key', key' <> key ->
               Map_get key' (Map_delete key c) = Map_get key' c)
     | None => getCachedResult key 5 (clock expiredWorld) c = (None, c)
     end.
Proof.
  intros c key.
  split; [vm_compute; reflexivity|].
  split; [vm_compute; reflexivity|].
  split; [vm_compute; reflexivity|].
  exact (getCachedResult_spec key 5 (clock expiredWorld) c).
Defined.

Lemma distinctb_NoDup l : distinctb l = true -> NoDup l.
Proof.
  induction l as [|x t IH]; simpl; intros H; [constructor|].
  apply andb_true_iff in H. destruct H as [Hx Ht].
  constructor; [|now apply IH].
  intros Hin. apply negb_true_iff in Hx.
  apply Bool.not_true_iff_false in Hx. apply Hx.
  apply existsb_exists. exists x. split; [assumption|apply String.eqb_refl].
Qed.

Lemma nonempty_keys l :
  forallb (fun k => negb (String.eqb k EmptyString)) l = true ->
  Forall (fun k => k <> EmptyString) l.
Proof.
  intros H. apply Forall_forall. intros k Hin.
  rewrite forallb_forall in H. specialize (H k Hin).
  apply negb_true_iff in H. now apply String.eqb_neq.
Qed.

(** C6 on the first put into the empty cache, and on 1001 puts under
    distinct keys. *)
Lemma cache_size_bound_witness :
  (wfCache []
   /\ "openai-compatible:test-model:oo73dx:u9r09r"%string <> EmptyString
   /\ wfCache (setCachedResult "openai-compatible:test-model:oo73dx:u9r09r"
                 [] 1000120 [])
   /\ Map_size (setCachedResult "openai-compatible:test-model:oo73dx:u9r09r"
                  [] 1000120 []) <= 1000)
  /\
  (List.length manyEntries = 1001%nat
   /\ NoDup (map keyOf manyEntries)
   /\ Forall (fun k => k <> EmptyString) (map keyOf manyEntries)
   /\ Map_size (putAll manyEntries []) = 1000
   /\ Map_get (hd EmptyString (map keyOf manyEntries)) (putAll manyEntries [])
      = None).
Proof.
  assert (Hkey : "openai-compatible:test-model:oo73dx:u9r09r"%string
                 <> EmptyString) by discriminate.
  assert (Hlen : List.length manyEntries = 1001%nat)
    by (vm_compute; reflexivity).
  assert (Hnd : NoDup (map keyOf manyEntries))
    by (apply distinctb_NoDup; vm_compute; reflexivity).
  assert (Hne : Forall (fun k => k <> EmptyString) (map keyOf manyEntries))
    by (apply nonempty_keys; vm_compute; reflexivity).
  split.
  - split; [exact wfCache_empty|]. split; [exact Hkey|].
    destruct (proj1 cache_size_bound
                "openai-compatible:test-model:oo73dx:u9r09r"%string
                [] 1000120 [] wfCache_empty Hkey) as (Hwf & Hsize & _).
    split; [exact Hwf|exact Hsize].
  - split; [exact Hlen|]. split; [exact Hnd|]. split; [exact Hne|].
    destruct (proj2 (proj2 cache_size_bound) manyEntries Hlen Hnd Hne)
      as (Hsize & Hfirst & _).
    split; [exact Hsize|exact Hfirst].
Defined.


(** * Further properties *)

(** ** The cache, put and looked up *)

Lemma Map_get_set_other key key' e (c : Cache) :
  key' <> key -> Map_get key' (Map_set key e c) = Map_get key' c.
Proof.
  intros Hne. unfold Map_get.
  induction c as [|[k e'] t IH]; simpl.
  - destruct (String.eqb key' key) eqn:E; [|reflexivity].
    apply String.eqb_eq in E. contradiction.
  - destruct (String.eqb key k) eqn:E; simpl.
    + apply String.eqb_eq in E. subst k.
      destruct (String.eqb key' key) eqn:E'; [|reflexivity].
      apply String.eqb_eq in E'. contradiction.
    + destruct (String.eqb key' k); [reflexivity|exact IH].
Qed.

(** X1.  A list put under a key is what a lookup of that key returns as
    long as less than [ttlMinutes] minutes have passed since the put, and
    the lookup leaves the cache as it is; from then on the lookup returns
    [null] and removes the entry. *)
Theorem put_then_get key rs putTime now ttlMinutes c :
  wfCache c -> key <> EmptyString ->
  let c' := setCachedResult key rs putTime c in
  (now - putTime < ttlMinutes * 60000 ->
   getCachedResult key ttlMinutes now c' = (Some rs, c'))
  /\ (~ now - putTime < ttlMinutes * 60000 ->
      getCachedResult key ttlMinutes now c' = (None, Map_delete key c')
      /\ Map_get key (Map_delete key c') = None).
Proof.
  intros Hwf Hkey c'. unfold getCachedResult.
  unfold c'. rewrite (Map_get_setCachedResult key rs putTime c Hwf Hkey).
  simpl. replace (ttlMinutes * 60 * 1000) with (ttlMinutes * 60000) by lia.
  split; intros Hage.
  - apply Z.ltb_lt in Hage. now rewrite Hage.
  - apply Z.ltb_nlt in Hage. rewrite Hage. split; [reflexivity|].
    apply Map_get_delete_same.
Qed.

Lemma put_then_get_witness :
  wfCache [] /\ "fp:0"%string <> EmptyString
  /\ (1000200 - 1000000 < 5 * 60000 ->
      getCachedResult "fp:0" 5 1000200 (setCachedResult "fp:0" [] 1000000 [])
      = (Some [], setCachedResult "fp:0" [] 1000000 [])).
Proof.
  assert (Hkey : "fp:0"%string <> EmptyString) by discriminate.
  split; [exact wfCache_empty|]. split; [exact Hkey|].
  exact (proj1 (put_then_get "fp:0" [] 1000000 1000200 5 [] wfCache_empty Hkey)).
Defined.

(** An adapter whose credentials resolve is [rerankWith] at its service,
    its model and its own request and error report. *)
Lemma rerank_unfold a this h i :
  (a = Cohere
   /\ exists e, forall query docs topK threshold inc w,
        rerank a this h query docs topK threshold i inc w = (Throw e, w))
  \/ exists buildRequest onError,
       forall query docs topK threshold inc w,
         rerank a this h query docs topK threshold i inc w
         = rerankWith h (net this) (serviceOf a)
             (modelOf a (getNodeParameter this i))
             (p_enableCache (getNodeParameter this i))
             (p_cacheTtl (getNodeParameter this i))
             (buildRequest query docs topK) onError
             query docs topK threshold inc w.
Proof.
  destruct a; simpl.
  - right. unfold rerankWithOpenAI_plain.
    eexists (fun query docs topK documentTexts => _), _.
    intros. reflexivity.
  - right. unfold rerankWithOpenAI.
    eexists (fun query docs topK documentTexts => _), _.
    intros. reflexivity.
  - unfold rerankWithCohere, bind, liftR.
    destruct (match getCredentials this "cohereApi" with
              | Ok apiKey => Ok apiKey
              | Throw _ => getCredentials this "cohereRerankerApi"
              end) as [credentials|e].
    + right. eexists (fun query docs topK documentTexts => _), _.
      intros. reflexivity.
    + left. split; [reflexivity|]. exists e. intros. reflexivity.
Qed.

(** What a successful call that has sent a request leaves behind, with
    the cache enabled: its fingerprint, and under it the returned list,
    stamped with the time the call ended. *)
Lemma miss_leaves_entry a this h query docs topK threshold i inc w out w' :
  wfCache (rerankCache w) ->
  p_enableCache (getNodeParameter this i) = true ->
  rerank a this h query docs topK threshold i inc w = (Ok out, w') ->
  requestsOf (newEffects w w') <> [] ->
  exists k,
    createCacheKey h query docs (serviceOf a)
      (modelOf a (getNodeParameter this i)) = Ok k
    /\ Map_get k (rerankCache w')
       = Some {| results := out; timestamp := clock w' |}
    /\ (exists texts, documentTexts h docs = Ok texts).
Proof.
  intros Hwf Hen H Hreq. apply rerank_course in H.
  destruct H as [(_ & [e He] & _)|(br & oe & Hc)]; [discriminate|].
  rewrite Hen in Hc. unfold course in Hc.
  destruct (createCacheKey _ _ _ _ _) as [k|e] eqn:Hk; [|now destruct Hc].
  exists k. split; [reflexivity|].
  assert (Hwf1 := wfCache_getCachedResult k
                    (p_cacheTtl (getNodeParameter this i)) (clock w) _ Hwf).
  destruct (fst (getCachedResult k _ (clock w) (rerankCache w))) as [cached|].
  - destruct Hc as [_ ->]. exfalso. apply Hreq.
    erewrite newEffects_app; [|simpl; reflexivity]. reflexivity.
  - unfold remoteCourse in Hc.
    destruct (documentTexts h docs) as [texts|e]; [|now destruct Hc].
    destruct (processedReply _ _ _ _ _) as [processed|e] eqn:Hp;
      [|now destruct Hc].
    destruct Hc as [[= <-] ->]. simpl.
    rewrite Map_get_setCachedResult;
      [|assumption|now apply createCacheKey_nonempty in Hk].
    split; [reflexivity|eauto].
Qed.

Lemma passes_geJS threshold r :
  passes threshold r -> geJS (_rerankScore r) threshold = true.
Proof.
  intros (q & Hq & Hle). unfold geJS. rewrite Hq. now apply Qle_bool_iff.
Qed.

Lemma filter_all {A} (f : A -> bool) l :
  Forall (fun x => f x = true) l -> filter f l = l.
Proof.
  induction 1 as [|x t Hx _ IH]; simpl; [reflexivity|].
  now rewrite Hx, IH.
Qed.

Lemma slice0_all {A} topK (l : list A) :
  Z.of_nat (List.length l) <= topK -> slice0 topK l = l.
Proof.
  intros Hlen. unfold slice0.
  replace (topK <? 0) with false by (symmetry; apply Z.ltb_ge; lia).
  rewrite Z.min_r by assumption. rewrite Nat2Z.id. apply firstn_all.
Qed.

(** X2.  With the cache enabled, after a call that sent a request and
    succeeded, a call of the same adapter for the same query, documents
    and model that starts from the cache that call left, less than
    [cacheTtl] minutes after it ended, sends no request, leaves the cache
    as it is and returns the list the first call returned, filtered by
    its own threshold and cut at its own [topK]; with the threshold of
    the first call and a [topK] that list does not exceed, it returns
    that very list. *)
Theorem second_call_served_from_cache
    a this h query docs topK1 threshold1 inc1 topK2 threshold2 inc2 i
    w out w1 w2 :
  wfCache (rerankCache w) ->
  p_enableCache (getNodeParameter this i) = true ->
  rerank a this h query docs topK1 threshold1 i inc1 w = (Ok out, w1) ->
  requestsOf (newEffects w w1) <> [] ->
  rerankCache w2 = rerankCache w1 ->
  clock w2 - clock w1 < p_cacheTtl (getNodeParameter this i) * 60000 ->
  exists served w2',
    rerank a this h query docs topK2 threshold2 i inc2 w2 = (Ok served, w2')
    /\ served = slice0 topK2
                  (filter (fun doc => geJS (_rerankScore doc) threshold2) out)
    /\ requestsOf (newEffects w2 w2') = []
    /\ rerankCache w2' = rerankCache w2
    /\ (threshold2 = threshold1 -> Z.of_nat (List.length out) <= topK2 ->
        served = out).
Proof.
  intros Hwf Hen H1 Hreq Hcache Hage.
  destruct (miss_leaves_entry _ _ _ _ _ _ _ _ _ _ _ _ Hwf Hen H1 Hreq)
    as (k & Hk & Hget & _).
  destruct (rerank_unfold a this h i) as [(_ & e & Hfail)|(br & oe & Hrun)].
  { rewrite Hfail in H1. discriminate. }
  assert (Hhit : getCachedResult k (p_cacheTtl (getNodeParameter this i))
                   (clock w2) (rerankCache w2) = (Some out, rerankCache w2)).
  { unfold getCachedResult. rewrite Hcache, Hget. simpl.
    replace (p_cacheTtl (getNodeParameter this i) * 60 * 1000)
      with (p_cacheTtl (getNodeParameter this i) * 60000) by lia.
    apply Z.ltb_lt in Hage. now rewrite Hage. }
  eexists _, _. split; [|split; [reflexivity|split; [|split]]].
  - rewrite Hrun. apply rerankWith_course. unfold course.
    rewrite Hen, Hk, Hhit. simpl. split; reflexivity.
  - erewrite newEffects_app; [|simpl; reflexivity]. reflexivity.
  - reflexivity.
  - intros -> Hlen.
    assert (Hpass : Forall (passes threshold1) out).
    { apply rerank_course in H1.
      destruct H1 as [(_ & [e He] & _)|(br' & oe' & Hc)]; [discriminate|].
      rewrite Hen in Hc. unfold course in Hc. rewrite Hk in Hc.
      destruct (fst (getCachedResult k _ (clock w) (rerankCache w))).
      - destruct Hc as [_ ->]. exfalso. apply Hreq.
        erewrite newEffects_app; [|simpl; reflexivity]. reflexivity.
      - unfold remoteCourse in Hc.
        destruct (documentTexts h docs); [|now destruct Hc].
        destruct (processedReply _ _ _ _ _) eqn:Hp; [|now destruct Hc].
        destruct Hc as [[= <-] _]. now apply processedReply_ok in Hp. }
    rewrite filter_all.
    + now apply slice0_all.
    + revert Hpass. apply Forall_impl. intros r. apply passes_geJS.
Qed.

Lemma second_call_served_from_cache_witness :
  let this := demoContext (demoParams true false) respondingNet in
  let first := rerank Cohere this demoHeap demoQuery demoDocs 10 (3 # 10)%Q
                 0%nat false startWorld in
  let w2 := later 240000 (snd first) in
  wfCache (rerankCache startWorld)
  /\ p_enableCache (getNodeParameter this 0%nat) = true
  /\ indicesOf (fst first) = Some [1; 0]
  /\ requestsOf (newEffects startWorld (snd first)) <> []
  /\ clock w2 - clock (snd first)
     < p_cacheTtl (getNodeParameter this 0%nat) * 60000
  /\ exists out served w2',
       fst first = Ok out
       /\ rerank Cohere this demoHeap demoQuery demoDocs 1 (3 # 10)%Q 0%nat
            true w2 = (Ok served, w2')
       /\ served = slice0 1
            (filter (fun doc => geJS (_rerankScore doc) (3 # 10)%Q) out)
       /\ requestsOf (newEffects w2 w2') = [].
Proof.
  intros this first w2.
  assert (Hwf : wfCache (rerankCache startWorld)) by exact wfCache_empty.
  assert (Hen : p_enableCache (getNodeParameter this 0%nat) = true)
    by reflexivity.
  assert (Hreq : requestsOf (newEffects startWorld (snd first)) <> []).
  { intros Heq. vm_compute in Heq. discriminate Heq. }
  assert (Hage : clock w2 - clock (snd first)
                 < p_cacheTtl (getNodeParameter this 0%nat) * 60000)
    by (vm_compute; reflexivity).
  split; [exact Hwf|]. split; [exact Hen|].
  split; [vm_compute; reflexivity|]. split; [exact Hreq|].
  split; [exact Hage|].
  destruct (fst first) as [out|e] eqn:Hfst.
  - assert (H1 : rerank Cohere this demoHeap demoQuery demoDocs 10 (3 # 10)%Q
                   0%nat false startWorld = (Ok out, snd first)).
    { rewrite <- Hfst. apply surjective_pairing. }
    destruct (second_call_served_from_cache Cohere this demoHeap demoQuery
                demoDocs 10 (3 # 10)%Q false 1 (3 # 10)%Q true 0%nat
                startWorld out (snd first) w2 Hwf Hen H1 Hreq eq_refl Hage)
      as (served & w2' & Hrun & Hserved & Hno & _).
    exists out, served, w2'. repeat split; assumption.
  - exfalso. vm_compute in Hfst. discriminate Hfst.
Defined.

(** X3.  With the cache enabled, once [cacheTtl] minutes or more have
    passed since a successful call that sent a request ended, the same
    call finds its entry expired: it removes it, sends a request again,
    exactly one, and if that succeeds stores the new list under the same
    key. *)
Theorem expired_entry_is_fetched_again
    a this h query docs topK1 threshold1 inc1 topK2 threshold2 inc2 i
    w out w1 w2 r w2' :
  wfCache (rerankCache w) ->
  p_enableCache (getNodeParameter this i) = true ->
  rerank a this h query docs topK1 threshold1 i inc1 w = (Ok out, w1) ->
  requestsOf (newEffects w w1) <> [] ->
  rerankCache w2 = rerankCache w1 ->
  ~ clock w2 - clock w1 < p_cacheTtl (getNodeParameter this i) * 60000 ->
  rerank a this h query docs topK2 threshold2 i inc2 w2 = (r, w2') ->
  (exists req, requestsOf (newEffects w2 w2') = [req])
  /\ forall k,
       createCacheKey h query docs (serviceOf a)
         (modelOf a (getNodeParameter this i)) = Ok k ->
       match r with
       | Ok fresh =>
           Map_get k (rerankCache w2')
           = Some {| results := fresh; timestamp := clock w2' |}
       | Throw _ => Map_get k (rerankCache w2') = None
       end.
Proof.
  intros Hwf Hen H1 Hreq Hcache Hage H2.
  assert (Hwf1 : wfCache (rerankCache w1)).
  { apply rerank_course in H1.
    destruct H1 as [(_ & [e He] & _)|(br & oe & Hc)]; [discriminate|].
    exact (course_wf _ _ _ _ _ _ _ _ _ _ _ _ _ _ _ _ Hc Hwf). }
  destruct (miss_leaves_entry _ _ _ _ _ _ _ _ _ _ _ _ Hwf Hen H1 Hreq)
    as (k & Hk & Hget & texts & Htexts).
  destruct (rerank_unfold a this h i) as [(_ & e & Hfail)|(br & oe & Hrun)].
  { rewrite Hfail in H1. discriminate. }
  rewrite Hrun in H2. apply rerankWith_course in H2. rename H2 into Hc.
  rewrite Hen in Hc. unfold course in Hc. rewrite Hk in Hc.
  assert (Hmiss : getCachedResult k (p_cacheTtl (getNodeParameter this i))
                    (clock w2) (rerankCache w2)
                  = (None, Map_delete k (rerankCache w1))).
  { unfold getCachedResult. rewrite Hcache, Hget. simpl.
    replace (p_cacheTtl (getNodeParameter this i) * 60 * 1000)
      with (p_cacheTtl (getNodeParameter this i) * 60000) by lia.
    apply Z.ltb_nlt in Hage. now rewrite Hage. }
  rewrite Hmiss in Hc. simpl in Hc.
  unfold remoteCourse in Hc. rewrite Htexts in Hc.
  destruct (processedReply _ _ _ _ _) as [processed|e].
  - destruct Hc as [-> ->]. split.
    + eexists. erewrite newEffects_app; [|simpl; rewrite <- !app_assoc; reflexivity].
      reflexivity.
    + intros k' Hk'. rewrite Hk in Hk'. injection Hk' as <-. simpl.
      apply Map_get_setCachedResult.
      * now apply wfCache_delete.
      * now apply createCacheKey_nonempty in Hk.
  - destruct Hc as [-> ->]. split.
    + eexists. erewrite newEffects_app; [|simpl; rewrite <- !app_assoc; reflexivity].
      reflexivity.
    + intros k' Hk'. rewrite Hk in Hk'. injection Hk' as <-. simpl. apply Map_get_delete_same.
Qed.

Lemma expired_entry_is_fetched_again_witness :
  let this := demoContext (demoParams true false) respondingNet in
  let first := rerank OpenAIPlain this demoHeap demoQuery demoDocs 10 0%Q
                 0%nat false startWorld in
  let w2 := later 300000 (snd first) in
  let second := rerank OpenAIPlain this demoHeap demoQuery demoDocs 10 0%Q
                  0%nat false w2 in
  wfCache (rerankCache startWorld)
  /\ p_enableCache (getNodeParameter this 0%nat) = true
  /\ requestsOf (newEffects startWorld (snd first)) <> []
  /\ ~ clock w2 - clock (snd first)
       < p_cacheTtl (getNodeParameter this 0%nat) * 60000
  /\ exists req, requestsOf (newEffects w2 (snd second)) = [req].
Proof.
  intros this first w2 second.
  assert (Hwf : wfCache (rerankCache startWorld)) by exact wfCache_empty.
  assert (Hen : p_enableCache (getNodeParameter this 0%nat) = true)
    by reflexivity.
  assert (Hreq : requestsOf (newEffects startWorld (snd first)) <> []).
  { intros Heq. vm_compute in Heq. discriminate Heq. }
  assert (Hage : ~ clock w2 - clock (snd first)
                   < p_cacheTtl (getNodeParameter this 0%nat) * 60000).
  { intros Hlt. vm_compute in Hlt. discriminate Hlt. }
  split; [exact Hwf|]. split; [exact Hen|]. split; [exact Hreq|].
  split; [exact Hage|].
  destruct (fst first) as [out|e] eqn:Hfst.
  - assert (H1 : rerank OpenAIPlain this demoHeap demoQuery demoDocs 10 0%Q
                   0%nat false startWorld = (Ok out, snd first)).
    { rewrite <- Hfst. apply surjective_pairing. }
    exact (proj1 (expired_entry_is_fetched_again OpenAIPlain this demoHeap
                    demoQuery demoDocs 10 0%Q false 10 0%Q false 0%nat
                    startWorld out (snd first) w2 (fst second) (snd second)
                    Hwf Hen H1 Hreq eq_refl Hage
                    (surjective_pairing second))).
  - exfalso. vm_compute in Hfst. discriminate Hfst.
Defined.

(** X4.  After [clearCache] the cache is empty, so a call with the cache
    enabled cannot be served from it: if it succeeds it has sent exactly
    one request and the cache then holds one entry, the returned list under
    the fingerprint of the call; if it fails the cache is still empty. *)
Theorem call_after_clearCache a this h query docs topK threshold i inc w r w' :
  p_enableCache (getNodeParameter this i) = true ->
  rerank a this h query docs topK threshold i inc (snd (clearCache w))
    = (r, w') ->
  match r with
  | Ok out =>
      exists k req,
        createCacheKey h query docs (serviceOf a)
          (modelOf a (getNodeParameter this i)) = Ok k
        /\ requestsOf (newEffects (snd (clearCache w)) w') = [req]
        /\ rerankCache w'
           = [(k, {| results := out; timestamp := clock w' |})]
  | Throw _ => rerankCache w' = []
  end.
Proof.
  intros Hen H. apply rerank_course in H.
  destruct H as [(_ & [e ->] & ->)|(br & oe & Hc)]; [reflexivity|].
  rewrite Hen in Hc. unfold course in Hc.
  destruct (createCacheKey _ _ _ _ _) as [k|e] eqn:Hk.
  2:{ now destruct Hc as [-> ->]. }
  simpl in Hc. unfold remoteCourse in Hc.
  destruct (documentTexts h docs) as [texts|e].
  2:{ now destruct Hc as [-> ->]. }
  destruct (processedReply _ _ _ _ _) as [processed|e].
  2:{ now destruct Hc as [-> ->]. }
  destruct Hc as [-> ->]. exists k. eexists.
  split; [reflexivity|]. split; [|reflexivity].
  erewrite newEffects_app; [|simpl; rewrite <- !app_assoc; reflexivity].
  reflexivity.
Qed.

Lemma call_after_clearCache_witness :
  let this := demoContext (demoParams true false) respondingNet in
  let run := rerank OpenAITemplates this demoHeap demoQuery demoDocs 10 0%Q
               0%nat false (snd (clearCache expiredWorld)) in
  p_enableCache (getNodeParameter this 0%nat) = true
  /\ Map_size (rerankCache expiredWorld) = 1
  /\ indicesOf (fst run) = Some [1; 0; 2]
  /\ match fst run with
     | Ok out =>
         exists k req,
           createCacheKey demoHeap demoQuery demoDocs
             (serviceOf OpenAITemplates)
             (modelOf OpenAITemplates (getNodeParameter this 0%nat)) = Ok k
           /\ requestsOf (newEffects (snd (clearCache expiredWorld)) (snd run))
              = [req]
           /\ rerankCache (snd run)
              = [(k, {| results := out; timestamp := clock (snd run) |})]
     | Throw _ => rerankCache (snd run) = []
     end.
Proof.
  intros this run.
  split; [reflexivity|]. split; [vm_compute; reflexivity|].
  split; [vm_compute; reflexivity|].
  exact (call_after_clearCache OpenAITemplates this demoHeap demoQuery demoDocs
           10 0%Q 0%nat false expiredWorld (fst run) (snd run) eq_refl
           (surjective_pairing run)).
Defined.

Lemma getCachedResult_other key key' ttl now c :
  key' <> key ->
  Map_get key' (snd (getCachedResult key ttl now c)) = Map_get key' c.
Proof.
  intros Hne. unfold getCachedResult.
  destruct (Map_get key c) as [e|]; [|reflexivity].
  destruct (now - timestamp e <? ttl * 60 * 1000); [reflexivity|].
  now apply Map_get_delete_other.
Qed.

Lemma getCachedResult_size key ttl now c :
  Map_size (snd (getCachedResult key ttl now c)) <= Map_size c.
Proof.
  unfold getCachedResult.
  destruct (Map_get key c) as [e|]; simpl; [|lia].
  destruct (now - timestamp e <? ttl * 60 * 1000); simpl; [lia|].
  unfold Map_size, Map_delete.
  pose proof (filter_length_le (fun p => negb (String.eqb key (fst p))) c). lia.
Qed.

Lemma setCachedResult_other key key' rs now c :
  wfCache c -> key <> EmptyString -> Map_size c < 1000 -> key' <> key ->
  Map_get key' (setCachedResult key rs now c) = Map_get key' c.
Proof.
  intros Hwf Hkey Hsz Hne.
  destruct (setCachedResult_cases key rs now c Hwf Hkey)
    as [[Hin ->]|[(Hin & Hlt & ->)|(Hin & Heq & _)]]; [| |lia].
  - now apply Map_get_set_other.
  - rewrite <- (Map_set_absent key _ c Hin). now apply Map_get_set_other.
Qed.

(** X5.  A call works on the cache under its own fingerprint only: as
    long as the cache holds fewer than 1000 entries, what is stored under
    any other key is after the call what it was before. *)
Theorem call_leaves_other_keys a this h query docs topK threshold i inc w r w'
    key' :
  wfCache (rerankCache w) ->
  Map_size (rerankCache w) < 1000 ->
  createCacheKey h query docs (serviceOf a)
    (modelOf a (getNodeParameter this i)) <> Ok key' ->
  rerank a this h query docs topK threshold i inc w = (r, w') ->
  Map_get key' (rerankCache w') = Map_get key' (rerankCache w).
Proof.
  intros Hwf Hsz Hother H. apply rerank_course in H.
  destruct H as [(_ & _ & ->)|(br & oe & Hc)]; [reflexivity|].
  assert (Hremote : forall key w1,
    wfCache (rerankCache w1) -> Map_size (rerankCache w1) < 1000 ->
    (forall k, key = Some k -> k <> EmptyString /\ key' <> k) ->
    remoteCourse h (net this) br oe docs threshold inc key w1 r w' ->
    Map_get key' (rerankCache w') = Map_get key' (rerankCache w1)).
  { intros key w1 Hwf1 Hsz1 Hkey. unfold remoteCourse.
    destruct (documentTexts h docs) as [texts|e]; [|now intros [_ ->]].
    destruct (processedReply _ _ _ _ _) as [processed|e]; [|now intros [_ ->]].
    intros [_ ->]. destruct key as [k|]; simpl; [|reflexivity].
    destruct (Hkey k eq_refl) as [Hk Hne].
    now apply setCachedResult_other. }
  unfold course in Hc.
  destruct (p_enableCache (getNodeParameter this i)).
  - destruct (createCacheKey _ _ _ _ _) as [k|e] eqn:Hk.
    2:{ now destruct Hc as [_ ->]. }
    assert (Hne : key' <> k) by (intros ->; now apply Hother).
    pose proof (getCachedResult_other k key'
                  (p_cacheTtl (getNodeParameter this i)) (clock w)
                  (rerankCache w) Hne) as Hget.
    pose proof (getCachedResult_size k
                  (p_cacheTtl (getNodeParameter this i)) (clock w)
                  (rerankCache w)) as Hsize.
    pose proof (wfCache_getCachedResult k
                  (p_cacheTtl (getNodeParameter this i)) (clock w)
                  (rerankCache w) Hwf) as Hwf1.
    destruct (fst (getCachedResult k _ (clock w) (rerankCache w))).
    + destruct Hc as [_ ->]. exact Hget.
    + rewrite <- Hget.
      match type of Hc with
      | remoteCourse _ _ _ _ _ _ _ _ ?w1 _ _ =>
          refine (Hremote (Some k) w1 Hwf1 _ _ Hc)
      end.
      * simpl. lia.
      * intros k0 [= <-]. split; [|assumption].
        now apply createCacheKey_nonempty in Hk.
  - refine (Hremote None w Hwf Hsz _ Hc). discriminate.
Qed.

(** Every call keeps the cache well formed. *)
Lemma rerank_wf a this h query docs topK threshold i inc w r w' :
  wfCache (rerankCache w) ->
  rerank a this h query docs topK threshold i inc w = (r, w') ->
  wfCache (rerankCache w').
Proof.
  intros Hwf H. apply rerank_course in H.
  destruct H as [(_ & _ & ->)|(br & oe & Hc)]; [assumption|].
  exact (course_wf _ _ _ _ _ _ _ _ _ _ _ _ _ _ _ _ Hc Hwf).
Qed.

Lemma call_leaves_other_keys_witness :
  let this := demoContext (demoParams true false) respondingNet in
  let w := snd (rerank OpenAIPlain this demoHeap demoQuery demoDocs 10 0%Q
                  0%nat false startWorld) in
  let run := rerank Cohere this demoHeap demoQuery demoDocs 10 (5 # 10)%Q
               0%nat false w in
  let key' := "openai-compatible:test-model:oo73dx:u9r09r"%string in
  wfCache (rerankCache w)
  /\ Map_size (rerankCache w) < 1000
  /\ createCacheKey demoHeap demoQuery demoDocs (serviceOf Cohere)
       (modelOf Cohere (getNodeParameter this 0%nat)) <> Ok key'
  /\ Map_size (rerankCache (snd run)) = 2
  /\ Map_get key' (rerankCache (snd run)) = Map_get key' (rerankCache w).
Proof.
  intros this w run key'.
  assert (Hwf : wfCache (rerankCache w)).
  { apply (rerank_wf OpenAIPlain this demoHeap demoQuery demoDocs 10 0%Q
             0%nat false startWorld
             (fst (rerank OpenAIPlain this demoHeap demoQuery demoDocs 10 0%Q
                     0%nat false startWorld)) w wfCache_empty).
    apply surjective_pairing. }
  assert (Hsz : Map_size (rerankCache w) < 1000) by (vm_compute; reflexivity).
  assert (Hkey : createCacheKey demoHeap demoQuery demoDocs (serviceOf Cohere)
                   (modelOf Cohere (getNodeParameter this 0%nat)) <> Ok key').
  { intros Heq. vm_compute in Heq. discriminate Heq. }
  split; [exact Hwf|]. split; [exact Hsz|]. split; [exact Hkey|].
  split; [vm_compute; reflexivity|].
  exact (call_leaves_other_keys Cohere this demoHeap demoQuery demoDocs 10
           (5 # 10)%Q 0%nat false w (fst run) (snd run) key' Hwf Hsz Hkey
           (surjective_pairing run)).
Defined.

(** ** The result processor *)

Lemma toScored_scoredOf h docs inc r :
  toScored h docs inc r
  = if inc && isNullish (docAt docs (index r))
    then Throw (TypeError
           "Cannot read properties of undefined (reading '_originalScore')")
    else Ok (scoredOf h docs r).
Proof. reflexivity. Qed.













(** ** Requests and failures *)

Lemma texts_of_plainTexts texts :
  map (fun d => snd (fst d)) (plainTexts texts) = texts.
Proof.
  unfold plainTexts. rewrite map_map. simpl. apply map_id.
Qed.

Lemma texts_of_finalDocuments p texts :
  map (fun d => snd (fst d)) (finalDocuments p texts) = texts.
Proof.
  unfold finalDocuments.
  destruct (p_enableCustomTemplates p); [|apply texts_of_plainTexts].
  destruct (String.eqb (p_templatePreset p) "qwen3");
    rewrite map_map; simpl; apply map_id.
Qed.

(** Every adapter, in full: either the Cohere credentials do not resolve,
    or the call takes the course of [rerankWith] with a request of the
    adapter's shape and the adapter's two error labels. *)
Lemma rerank_kinds a this h query docs topK threshold i inc w r w' :
  rerank a this h query docs topK threshold i inc w = (r, w') ->
  (a = Cohere
   /\ (exists e0, getCredentials this "cohereApi" = Throw e0)
   /\ (exists e, getCredentials this "cohereRerankerApi" = Throw e
                 /\ r = Throw e)
   /\ w' = w)
  \/ exists buildRequest describeBody describeError,
       course h (net this) (serviceOf a) (modelOf a (getNodeParameter this i))
         (p_enableCache (getNodeParameter this i))
         (p_cacheTtl (getNodeParameter this i))
         buildRequest
         (apiError (apiLabelOf a) (failLabelOf a) describeBody describeError)
         query docs topK threshold inc w r w'
       /\ forall texts,
            wellBuilt a (getNodeParameter this i) query docs topK texts
              (buildRequest texts).
Proof.
  destruct a; simpl.
  - unfold rerankWithOpenAI_plain. intros H. right.
    apply rerankWith_course in H. do 3 eexists. split; [exact H|].
    intros texts. unfold wellBuilt. simpl.
    repeat split; try reflexivity. apply texts_of_plainTexts.
  - unfold rerankWithOpenAI. intros H. right.
    apply rerankWith_course in H. do 3 eexists. split; [exact H|].
    intros texts. unfold wellBuilt. simpl.
    repeat split; try reflexivity. apply texts_of_finalDocuments.
  - unfold rerankWithCohere, bind, liftR.
    destruct (getCredentials this "cohereApi") as [key|e0] eqn:H1.
    + intros H. right. apply rerankWith_course in H.
      do 3 eexists. split; [exact H|].
      intros texts. unfold wellBuilt. simpl.
      repeat split; try reflexivity. apply texts_of_plainTexts.
    + destruct (getCredentials this "cohereRerankerApi") as [key|e] eqn:H2.
      * intros H. right. apply rerankWith_course in H.
        do 3 eexists. split; [exact H|].
        intros texts. unfold wellBuilt. simpl.
        repeat split; try reflexivity. apply texts_of_plainTexts.
      * intros [= <- <-]. left. eauto 8.
Qed.

Lemma rmap_length {A B} (f : A -> result B) l out :
  rmap f l = Ok out -> List.length out = List.length l.
Proof.
  revert out. induction l as [|x t IH]; simpl; intros out H.
  - now injection H as <-.
  - destruct (f x); simpl in H; [|discriminate].
    destruct (rmap f t) as [ys|]; simpl in H; [|discriminate].
    injection H as <-. simpl. now rewrite (IH ys eq_refl).
Qed.

(** X9.  A call sends at most one request, and sends it only after every
    document has yielded its text.  The request goes to the endpoint of
    the node (Cohere: to the fixed Cohere address), names the model the
    fingerprint is made with, carries the document texts, one per
    document and in the order of the documents, each between its prefix
    and suffix, and asks for [top_n = min(topK, number of documents)]. *)
Theorem request_shape a this h query docs topK threshold i inc w r w' :
  rerank a this h query docs topK threshold i inc w = (r, w') ->
  (requestsOf (newEffects w w') = []
   \/ exists req texts,
        requestsOf (newEffects w w') = [req]
        /\ documentTexts h docs = Ok texts
        /\ wellBuilt a (getNodeParameter this i) query docs topK texts req
        /\ List.length (body_documents (body req)) = List.length docs).
Proof.
  intros H. apply rerank_kinds in H.
  destruct H as [(_ & _ & _ & ->)|(br & db & de & Hc & Hbr)].
  { left. now rewrite (newEffects_app w w [] (eq_sym (app_nil_r _))). }
  assert (Hremote : forall key w1,
    remoteCourse h (net this) br
      (apiError (apiLabelOf a) (failLabelOf a) db de) docs threshold inc
      key w1 r w' ->
    exists evs, effects w' = effects w1 ++ evs
      /\ (requestsOf evs = []
          \/ exists texts, requestsOf evs = [br texts]
                           /\ documentTexts h docs = Ok texts)).
  { intros key w1. unfold remoteCourse.
    destruct (documentTexts h docs) as [texts|e].
    { destruct (processedReply _ _ _ _ _).
      - intros [_ ->]. destruct key; simpl.
        + eexists. rewrite <- app_assoc. split; [reflexivity|].
          right. exists texts. now split.
        + eexists. split; [reflexivity|]. right. exists texts. now split.
      - intros [_ ->]. simpl. eexists. split; [reflexivity|].
        right. exists texts. now split. }
    intros [_ ->]. exists []. rewrite app_nil_r. split; [reflexivity|now left]. }
  assert (Hdone : forall evs,
    effects w' = effects w ++ evs ->
    (requestsOf evs = []
     \/ exists texts, requestsOf evs = [br texts]
                      /\ documentTexts h docs = Ok texts) ->
    requestsOf (newEffects w w') = []
    \/ exists req texts,
         requestsOf (newEffects w w') = [req]
         /\ documentTexts h docs = Ok texts
         /\ wellBuilt a (getNodeParameter this i) query docs topK texts req
         /\ List.length (body_documents (body req)) = List.length docs).
  { intros evs Heff Hev. rewrite (newEffects_app w w' evs Heff).
    destruct Hev as [Hnone|(texts & Hone & Htexts)]; [now left|].
    right. exists (br texts), texts. repeat split; try assumption; try apply Hbr.
    destruct (Hbr texts) as (_ & _ & _ & Hdocs & _).
    rewrite <- (length_map (fun d => snd (fst d))), Hdocs.
    now apply rmap_length in Htexts. }
  unfold course in Hc. destruct (p_enableCache (getNodeParameter this i)).
  - destruct (createCacheKey _ _ _ _ _) as [k|e].
    2:{ destruct Hc as [_ ->]. left.
        now rewrite (newEffects_app w w [] (eq_sym (app_nil_r _))). }
    destruct (fst (getCachedResult k _ (clock w) (rerankCache w))).
    + destruct Hc as [_ ->]. left.
      erewrite newEffects_app; [|simpl; reflexivity]. reflexivity.
    + apply Hremote in Hc. destruct Hc as (evs & Heff & Hev). simpl in Heff.
      apply (Hdone (EvGetCached k :: evs)).
      * rewrite Heff, <- app_assoc. reflexivity.
      * exact Hev.
  - apply Hremote in Hc. destruct Hc as (evs & Heff & Hev).
    now apply (Hdone evs).
Qed.

Lemma request_shape_witness :
  let this := demoContext (demoParams false true) respondingNet in
  let run := rerank OpenAITemplates this demoHeap demoQuery demoDocs 2 0%Q
               0%nat false startWorld in
  map (fun req => top_n (body req))
    (requestsOf (newEffects startWorld (snd run))) = [2]
  /\ (requestsOf (newEffects startWorld (snd run)) = []
      \/ exists req texts,
           requestsOf (newEffects startWorld (snd run)) = [req]
           /\ documentTexts demoHeap demoDocs = Ok texts
           /\ wellBuilt OpenAITemplates (getNodeParameter this 0%nat)
                demoQuery demoDocs 2 texts req
           /\ List.length (body_documents (body req))
              = List.length demoDocs).
Proof.
  intros this run. split; [vm_compute; reflexivity|].
  exact (request_shape OpenAITemplates this demoHeap demoQuery demoDocs 2 0%Q
           0%nat false startWorld (fst run) (snd run)
           (surjective_pairing run)).
Defined.








(** ** The flow node *)



Lemma executeItem_ok this h i it w out w' :
  executeItem this h i it w = (Ok out, w') ->
  let p := getNodeParameter this i in
  out_json out = json it
  /\ out_query out = p_query p
  /\ isBlank (p_query p) = false
  /\ rerankedCount out = Z.of_nat (List.length (rerankedDocs out))
  /\ exists docs,
       assoc (p_documentsField p) (json it) = Some (MArray docs)
       /\ originalCount out = Z.of_nat (List.length docs).
Proof.
  intros H p. unfold executeItem, tryRethrow in H.
  destruct (executeItemBody this h i it w) as [[o|e0] w0] eqn:Hbody;
    [|discriminate].
  injection H as <- <-.
  unfold executeItemBody, throw in Hbody. fold p in Hbody.
  destruct (String.eqb (p_query p) EmptyString || isBlank (p_query p)) eqn:Hq;
    [discriminate Hbody|].
  apply orb_false_iff in Hq. destruct Hq as [_ Hblank].
  destruct (assoc (p_documentsField p) (json it)) as [[docs|v]|];
    try discriminate Hbody.
  destruct (Nat.eqb (List.length docs) 0) eqn:Hlen.
  - injection Hbody as <- <-. simpl.
    split; [reflexivity|]. split; [reflexivity|]. split; [assumption|].
    split; [reflexivity|]. exists docs. split; [reflexivity|].
    apply Nat.eqb_eq in Hlen. now rewrite Hlen.
  - unfold bind in Hbody.
    destruct ((if String.eqb (p_service p) "openai-compatible"
               then rerankWithOpenAI this h (p_query p) docs (p_topK p)
                      (p_threshold p) i (p_includeOriginalScores p)
               else if String.eqb (p_service p) "cohere"
                    then rerankWithCohere this h (p_query p) docs (p_topK p)
                           (p_threshold p) i (p_includeOriginalScores p)
                    else fun w => (Throw (NodeOperationError
                                  ("Unsupported service: " ++ p_service p)), w))
                w)
      as [[rr|er] w1]; [|discriminate].
    injection Hbody as <- <-. simpl.
    split; [reflexivity|]. split; [reflexivity|]. split; [assumption|].
    split; [reflexivity|]. exists docs. now split.
Qed.

Lemma executeFrom_outputs this h items : forall i w outs w',
  executeFrom this h i items w = (Ok outs, w') ->
  List.length outs = List.length items
  /\ forall n it out,
       nth_error items n = Some it -> nth_error outs n = Some out ->
       let p := getNodeParameter this (i + n) in
       out_json out = json it
       /\ out_query out = p_query p
       /\ isBlank (p_query p) = false
       /\ rerankedCount out = Z.of_nat (List.length (rerankedDocs out))
       /\ exists docs,
            assoc (p_documentsField p) (json it) = Some (MArray docs)
            /\ originalCount out = Z.of_nat (List.length docs).
Proof.
  induction items as [|it0 rest IH]; intros i w outs w' H.
  - injection H as <- <-. split; [reflexivity|].
    intros [|n] it out Hit; discriminate Hit.
  - simpl in H. unfold bind in H.
    destruct (executeItem this h i it0 w) as [[o|e] w1] eqn:H0; [|discriminate].
    destruct (executeFrom this h (S i) rest w1) as [[os|e] w2] eqn:Hrest;
      [|discriminate].
    injection H as <- <-.
    destruct (IH _ _ _ _ Hrest) as [Hlen Hnth]. split; [simpl; now rewrite Hlen|].
    intros [|n] it out Hit Hout; simpl in Hit, Hout.
    + injection Hit as <-. injection Hout as <-.
      rewrite Nat.add_0_r. exact (executeItem_ok _ _ _ _ _ _ _ H0).
    + replace (i + S n)%nat with (S i + n)%nat by lia.
      now apply Hnth.
Qed.

(** X12.  When [execute] succeeds it returns one output item for every
    input item, in the order of the input: the item's own [json] with its
    query, [originalCount] the number of documents in its documents field
    (which is an array), [rerankedCount] the number of [rerankedDocs]; and
    the query of every item is non-blank. *)
Theorem execute_outputs this h items w outs w' :
  execute this h items w = (Ok outs, w') ->
  List.length outs = List.length items
  /\ forall n it out,
       nth_error items n = Some it -> nth_error outs n = Some out ->
       let p := getNodeParameter this n in
       out_json out = json it
       /\ out_query out = p_query p
       /\ isBlank (p_query p) = false
       /\ rerankedCount out = Z.of_nat (List.length (rerankedDocs out))
       /\ exists docs,
            assoc (p_documentsField p) (json it) = Some (MArray docs)
            /\ originalCount out = Z.of_nat (List.length docs).
Proof.
  intros H. unfold execute in H.
  destruct (executeFrom_outputs this h items 0%nat w outs w' H) as [Hlen Hnth].
  split; [exact Hlen|]. intros n it out Hit Hout. exact (Hnth n it out Hit Hout).
Qed.

Lemma execute_outputs_witness :
  let this := demoContext (demoParams true false) respondingNet in
  let items := [itemWith demoDocs; itemWith []; itemWith demoDocs] in
  let run := execute this demoHeap items startWorld in
  exists outs,
    run = (Ok outs, snd run)
    /\ map rerankedCount outs = [3; 0; 3]
    /\ List.length (requestsOf (effects (snd run))) = 1%nat
    /\ List.length outs = List.length items.
Proof.
  intros this items run.
  destruct (fst run) as [outs|e] eqn:Hfst.
  - assert (Hrun : run = (Ok outs, snd run)).
    { rewrite <- Hfst. apply surjective_pairing. }
    exists outs. split; [exact Hrun|]. split.
    + assert (Hc : match fst run with
                   | Ok o => map rerankedCount o
                   | Throw _ => []
                   end = [3; 0; 3]) by (vm_compute; reflexivity).
      now rewrite Hfst in Hc.
    + split; [vm_compute; reflexivity|].
      exact (proj1 (execute_outputs this demoHeap items startWorld outs
                      (snd run) Hrun)).
  - exfalso. vm_compute in Hfst. discriminate Hfst.
Defined.

(** ** Credentials and templates *)

Lemma course_requests h net service model enableCache cacheTtl br onError
    query docs topK threshold inc w r w' :
  course h net service model enableCache cacheTtl br onError
    query docs topK threshold inc w r w' ->
  forall req, In req (requestsOf (newEffects w w')) ->
    exists texts, documentTexts h docs = Ok texts /\ req = br texts.
Proof.
  intros Hc req Hin. apply course_log in Hc.
  destruct Hc as (lookups & reqs & stores & Heff & _ & _ & Hreqs & _).
  apply newEffects_app in Heff. rewrite Heff, requestsOf_log in Hin.
  now apply Hreqs.
Qed.

(** X13.  Every request carries the [Authorization] header of its
    adapter: none from the plain OpenAI adapter; "Bearer" and the key of
    the OpenAI credential when that resolves to a non-empty key, none
    otherwise (a failed lookup is not an error); "Bearer" and the key of
    the official Cohere credential, else of the legacy one.  A Cohere
    call for which neither resolves throws the error of the legacy lookup
    before anything else: the world is untouched, whatever the cache
    holds. *)
Theorem authorization_header a this h query docs topK threshold i inc w r w' :
  rerank a this h query docs topK threshold i inc w = (r, w') ->
  (forall req, In req (requestsOf (newEffects w w')) ->
     authorization req = authorizationOf a this)
  /\ (a = Cohere -> authorizationOf Cohere this = None ->
      w' = w
      /\ exists e, r = Throw e
                   /\ getCredentials this "cohereRerankerApi" = Throw e).
Proof.
  destruct a; simpl.
  - unfold rerankWithOpenAI_plain. intros H. split; [|discriminate].
    apply rerankWith_course in H. intros req Hin.
    destruct (course_requests _ _ _ _ _ _ _ _ _ _ _ _ _ _ _ _ H req Hin)
      as (texts & _ & ->). reflexivity.
  - unfold rerankWithOpenAI. intros H. split; [|discriminate].
    apply rerankWith_course in H. intros req Hin.
    destruct (course_requests _ _ _ _ _ _ _ _ _ _ _ _ _ _ _ _ H req Hin)
      as (texts & _ & ->). simpl.
    destruct (getCredentials this "openAiApi") as [apiKey|e]; [|reflexivity].
    now destruct (String.eqb apiKey EmptyString).
  - unfold rerankWithCohere, bind, liftR.
    destruct (getCredentials this "cohereApi") as [key|e0].
    + intros H. split; [|discriminate].
      apply rerankWith_course in H. intros req Hin.
      destruct (course_requests _ _ _ _ _ _ _ _ _ _ _ _ _ _ _ _ H req Hin)
        as (texts & _ & ->). reflexivity.
    + destruct (getCredentials this "cohereRerankerApi") as [key|e].
      * intros H. split; [|discriminate].
        apply rerankWith_course in H. intros req Hin.
        destruct (course_requests _ _ _ _ _ _ _ _ _ _ _ _ _ _ _ _ H req Hin)
          as (texts & _ & ->). reflexivity.
      * intros [= <- <-]. split.
        -- intros req Hin.
           rewrite (newEffects_app w w [] (eq_sym (app_nil_r _))) in Hin.
           destruct Hin.
        -- intros _ _. split; [reflexivity|]. exists e. now split.
Qed.

Lemma authorization_header_witness :
  let this := demoContext (demoParams false false) respondingNet in
  let run := rerank Cohere this demoHeap demoQuery demoDocs 10 0%Q 0%nat false
               startWorld in
  map authorization (requestsOf (newEffects startWorld (snd run)))
    = [Some "Bearer demo-cohere-key"%string]
  /\ forall req, In req (requestsOf (newEffects startWorld (snd run))) ->
       authorization req = authorizationOf Cohere this.
Proof.
  intros this run. split; [vm_compute; reflexivity|].
  exact (proj1 (authorization_header Cohere this demoHeap demoQuery demoDocs 10
                  0%Q 0%nat false startWorld (fst run) (snd run)
                  (surjective_pairing run))).
Defined.

Lemma messageOf_apiError apiLabel failLabel db1 de1 db2 de2 e :
  messageOf (apiError apiLabel failLabel db1 de1 e)
  = messageOf (apiError apiLabel failLabel db2 de2 e).
Proof.
  unfold apiError.
  now destruct e as [m|m|m d|status [responseBody|] m|m].
Qed.

(** Two courses that build the same requests and report errors under the
    same messages agree on the world and the result, up to the
    description of the error. *)
Lemma course_same_requests h net service model enableCache cacheTtl br1 br2
    oe1 oe2 query docs topK threshold inc w r1 w1 r2 w2 :
  (forall texts, br1 texts = br2 texts) ->
  (forall e, messageOf (oe1 e) = messageOf (oe2 e)) ->
  course h net service model enableCache cacheTtl br1 oe1
    query docs topK threshold inc w r1 w1 ->
  course h net service model enableCache cacheTtl br2 oe2
    query docs topK threshold inc w r2 w2 ->
  w1 = w2
  /\ match r1, r2 with
     | Ok out1, Ok out2 => out1 = out2
     | Throw e1, Throw e2 => messageOf e1 = messageOf e2
     | _, _ => False
     end.
Proof.
  intros Hbr Hoe H1 H2.
  assert (Hremote : forall key w0,
    remoteCourse h net br1 oe1 docs threshold inc key w0 r1 w1 ->
    remoteCourse h net br2 oe2 docs threshold inc key w0 r2 w2 ->
    w1 = w2
    /\ match r1, r2 with
       | Ok out1, Ok out2 => out1 = out2
       | Throw e1, Throw e2 => messageOf e1 = messageOf e2
       | _, _ => False
       end).
  { intros key w0. unfold remoteCourse.
    destruct (documentTexts h docs) as [texts|e].
    2:{ intros [-> ->] [-> ->]. now split. }
    rewrite (Hbr texts).
    destruct (processedReply _ _ _ _ _) as [processed|e].
    - intros [-> ->] [-> ->]. now split.
    - intros [-> ->] [-> ->]. split; [reflexivity|apply Hoe]. }
  unfold course in H1, H2. destruct enableCache.
  - destruct (createCacheKey _ _ _ _ _) as [k|e].
    2:{ destruct H1 as [-> ->], H2 as [-> ->]. now split. }
    destruct (fst (getCachedResult k _ (clock w) (rerankCache w))).
    + destruct H1 as [-> ->], H2 as [-> ->]. now split.
    + exact (Hremote _ _ H1 H2).
  - exact (Hremote _ _ H1 H2).
Qed.

(** X14.  With the templates switched off and no usable OpenAI key,
    [rerankWithOpenAI] with templates is [rerankWithOpenAI] without: from
    the same world the two send the same request, leave the same world,
    cache included, and return the same list, or fail with errors of the
    same message (only the description of the error differs). *)
Theorem templates_off_is_plain this h query docs topK threshold i inc w :
  p_enableCustomTemplates (getNodeParameter this i) = false ->
  authorizationOf OpenAITemplates this = None ->
  snd (rerankWithOpenAI this h query docs topK threshold i inc w)
  = snd (rerankWithOpenAI_plain this h query docs topK threshold i inc w)
  /\ match fst (rerankWithOpenAI this h query docs topK threshold i inc w),
           fst (rerankWithOpenAI_plain this h query docs topK threshold i inc w)
     with
     | Ok out1, Ok out2 => out1 = out2
     | Throw e1, Throw e2 => messageOf e1 = messageOf e2
     | _, _ => False
     end.
Proof.
  intros Hoff Hauth.
  pose proof (surjective_pairing
                (rerankWithOpenAI this h query docs topK threshold i inc w))
    as H1.
  pose proof (surjective_pairing
                (rerankWithOpenAI_plain this h query docs topK threshold i inc w))
    as H2.
  unfold rerankWithOpenAI in H1 at 1. unfold rerankWithOpenAI_plain in H2 at 1.
  apply rerankWith_course in H1, H2.
  refine (course_same_requests _ _ _ _ _ _ _ _ _ _ _ _ _ _ _ _ _ _ _ _ _ _
            H1 H2).
  - intros texts. unfold finalQuery, finalDocuments. rewrite Hoff.
    simpl in Hauth.
    destruct (getCredentials this "openAiApi") as [apiKey|e]; [|reflexivity].
    destruct (String.eqb apiKey EmptyString); [reflexivity|discriminate].
  - intros e. apply messageOf_apiError.
Qed.

Lemma templates_off_is_plain_witness :
  let this := demoContext (demoParams true false) respondingNet in
  p_enableCustomTemplates (getNodeParameter this 0%nat) = false
  /\ authorizationOf OpenAITemplates this = None
  /\ snd (rerankWithOpenAI this demoHeap demoQuery demoDocs 10 0%Q 0%nat false
            startWorld)
     = snd (rerankWithOpenAI_plain this demoHeap demoQuery demoDocs 10 0%Q
              0%nat false startWorld).
Proof.
  intros this.
  split; [reflexivity|]. split; [reflexivity|].
  exact (proj1 (templates_off_is_plain this demoHeap demoQuery demoDocs 10 0%Q
                  0%nat false startWorld eq_refl eq_refl)).
Defined.

(** ** The fingerprint *)

Lemma toInt32_offset z : exists k, toInt32 z = z + k * 2 ^ 32.
Proof.
  unfold toInt32.
  pose proof (Z.div_mod z (2 ^ 32) ltac:(lia)) as Hdm.
  destruct (z mod 2 ^ 32 <? 2 ^ 31).
  - exists (- (z / 2 ^ 32)). lia.
  - exists (- (z / 2 ^ 32) - 1). lia.
Qed.

Lemma toInt32_range z : - 2 ^ 31 <= toInt32 z < 2 ^ 31.
Proof.
  unfold toInt32.
  pose proof (Z.mod_pos_bound z (2 ^ 32) ltac:(lia)) as Hm.
  destruct (z mod 2 ^ 32 <? 2 ^ 31) eqn:E.
  - apply Z.ltb_lt in E. lia.
  - apply Z.ltb_ge in E. lia.
Qed.

Lemma toInt32_congruent a b k : a = b + k * 2 ^ 32 -> toInt32 a = toInt32 b.
Proof.
  intros ->. unfold toInt32. now rewrite Z_mod_plus_full.
Qed.

Lemma hashStep_polynomial a c :
  hashStep (toInt32 a) c = toInt32 (31 * a + charCode c).
Proof.
  unfold hashStep. rewrite Z.land_diag.
  destruct (toInt32_offset a) as [k1 H1].
  destruct (toInt32_offset (toInt32 a)) as [k0 H0].
  destruct (toInt32_offset (Z.shiftl (toInt32 (toInt32 a)) 5)) as [k2 H2].
  rewrite Z.shiftl_mul_pow2 in H2 by lia.
  apply toInt32_congruent with (k := 32 * k0 + 31 * k1 + k2).
  rewrite Z.shiftl_mul_pow2 by lia. lia.
Qed.

Lemma hashLoop_polynomial s : forall a,
  hashLoop (toInt32 a) s = toInt32 (polyHash a s).
Proof.
  induction s as [|c t IH]; intros a; simpl; [reflexivity|].
  rewrite hashStep_polynomial. apply IH.
Qed.

(** X15.  The number [simpleHash] renders is the polynomial hash of the
    string with multiplier 31 over its code units, reduced to a signed 32
    bit integer, whatever the length of the string; its sign is dropped
    before the rendering in base 36, so that two strings whose hashes
    are opposite numbers get the same text. *)
Theorem simpleHash_polynomial s :
  hashLoop 0 s = toInt32 (polyHash 0 s)
  /\ - 2 ^ 31 <= hashLoop 0 s < 2 ^ 31
  /\ simpleHash s = toString36 (Z.abs (toInt32 (polyHash 0 s)))
  /\ forall s',
       toInt32 (polyHash 0 s') = toInt32 (polyHash 0 s)
       \/ toInt32 (polyHash 0 s') = - toInt32 (polyHash 0 s) ->
       simpleHash s' = simpleHash s.
Proof.
  assert (H : forall t, hashLoop 0 t = toInt32 (polyHash 0 t)).
  { intros t. change 0 with (toInt32 0) at 1. apply hashLoop_polynomial. }
  split; [apply H|]. split; [rewrite H; apply toInt32_range|].
  split; [unfold simpleHash; now rewrite H|].
  intros s' Heq. unfold simpleHash. rewrite !H.
  destruct Heq as [->| ->]; [reflexivity|]. now rewrite Z.abs_opp.
Qed.

Lemma simpleHash_polynomial_witness : simpleHash "BB" = simpleHash "Aa".
Proof.
  apply (proj2 (proj2 (proj2 (simpleHash_polynomial "Aa"))) "BB").
  left. vm_compute. reflexivity.
Defined.

Lemma first_letter_differs a b (c d : ascii) s t :
  c <> d -> (String c a ++ s)%string <> (String d b ++ t)%string.
Proof. intros Hne H. simpl in H. injection H as Hc _. contradiction. Qed.

(** X16.  No key of an OpenAI-compatible call is a key of a Cohere call,
    whatever the queries, documents and models: neither adapter is ever
    served an entry the other has stored. *)
Theorem services_do_not_share_keys
    a1 a2 this1 this2 h1 h2 query1 query2 docs1 docs2 topK1 topK2
    threshold1 threshold2 i1 i2 inc1 inc2 w1 w2 r1 r2 w1' w2' k1 k2 :
  a1 <> Cohere -> a2 = Cohere ->
  rerank a1 this1 h1 query1 docs1 topK1 threshold1 i1 inc1 w1 = (r1, w1') ->
  rerank a2 this2 h2 query2 docs2 topK2 threshold2 i2 inc2 w2 = (r2, w2') ->
  In k1 (usedKeys (newEffects w1 w1')) ->
  In k2 (usedKeys (newEffects w2 w2')) ->
  k1 <> k2.
Proof.
  intros Ha1 -> H1 H2 Hk1 Hk2.
  assert (Hkey : forall a this h query docs topK threshold i inc w r w' k,
    rerank a this h query docs topK threshold i inc w = (r, w') ->
    In k (usedKeys (newEffects w w')) ->
    exists rest, k = (serviceOf a ++ ":" ++ rest)%string).
  { clear. intros a this h query docs topK threshold i inc w r w' k H Hk.
    apply rerank_course in H. destruct H as [(_ & _ & ->)|(br & oe & Hc)].
    - rewrite (newEffects_app w w [] (eq_sym (app_nil_r _))) in Hk. destruct Hk.
    - apply course_log in Hc.
      destruct Hc as (lookups & reqs & stores & Heff & Hkeys & _).
      apply newEffects_app in Heff. rewrite Heff, usedKeys_log in Hk.
      apply in_app_iff in Hk. destruct (Hkeys k Hk) as [_ Hc].
      unfold createCacheKey in Hc.
      destruct (documentTexts h docs) as [texts|]; simpl in Hc; [|discriminate].
      destruct (JSON_stringify_array h texts); simpl in Hc; [|discriminate].
      injection Hc as <-. eexists. reflexivity. }
  destruct (Hkey _ _ _ _ _ _ _ _ _ _ _ _ _ H1 Hk1) as [rest1 ->].
  destruct (Hkey _ _ _ _ _ _ _ _ _ _ _ _ _ H2 Hk2) as [rest2 ->].
  destruct a1; [| |contradiction]; simpl; intros Heq; discriminate Heq.
Qed.

Lemma services_do_not_share_keys_witness :
  let this := demoContext (demoParams true false) respondingNet in
  let first := rerank OpenAIPlain this demoHeap demoQuery demoDocs 10 0%Q
                 0%nat false startWorld in
  let second := rerank Cohere this demoHeap demoQuery demoDocs 10 0%Q 0%nat
                  false (snd first) in
  OpenAIPlain <> Cohere
  /\ usedKeys (newEffects startWorld (snd first))
     = ["openai-compatible:test-model:oo73dx:u9r09r";
        "openai-compatible:test-model:oo73dx:u9r09r"]%string
  /\ List.length (requestsOf (newEffects (snd first) (snd second))) = 1%nat
  /\ forall k1 k2,
       In k1 (usedKeys (newEffects startWorld (snd first))) ->
       In k2 (usedKeys (newEffects (snd first) (snd second))) ->
       k1 <> k2.
Proof.
  intros this first second.
  assert (Hne : OpenAIPlain <> Cohere) by discriminate.
  split; [exact Hne|]. split; [vm_compute; reflexivity|].
  split; [vm_compute; reflexivity|].
  intros k1 k2.
  exact (services_do_not_share_keys OpenAIPlain Cohere this this demoHeap
           demoHeap demoQuery demoQuery demoDocs demoDocs 10 10 0%Q 0%Q
           0%nat 0%nat false false startWorld (snd first) (fst first)
           (fst second) (snd first) (snd second) k1 k2 Hne eq_refl
           (surjective_pairing first) (surjective_pairing second)).
Defined.

(** ** The text of a document *)

Lemma numberToString_nonempty n : numberToString n <> EmptyString.
Proof.
  unfold numberToString, NilZero.string_of_int.
  destruct (Z.to_int n) as [d|d]; [|discriminate].
  unfold NilZero.string_of_uint. destruct d; discriminate.
Qed.

Lemma serialize_nonempty fuel h stack v s :
  serialize fuel h stack v = Ok (Some s) -> s <> EmptyString.
Proof.
  destruct fuel, v as [| |[|]|n|t|a]; simpl; try discriminate;
    try (intros [= <-]; discriminate);
    try (intros [= <-]; apply numberToString_nonempty).
  - destruct (nth_error h a); [|discriminate].
    destruct (existsb _ _); discriminate.
  - destruct (nth_error h a) as [c|]; [|discriminate].
    destruct (existsb _ _); [discriminate|].
    destruct c as [props|elems].
    + destruct (serProps _ _); simpl; [|discriminate].
      intros [= <-]. discriminate.
    + destruct (serElems _ _); simpl; [|discriminate].
      intros [= <-]. discriminate.
Qed.

(** A text that is not truthy is the [undefined] that the serialisation
    of [undefined] gives. *)
Lemma documentText_falsy h d v :
  documentText h d = Ok v -> truthy v = false ->
  v = VUndefined
  /\ (d = VUndefined \/ exists a, d = VRef a /\ nth_error h a = None).
Proof.
  unfold documentText.
  destruct (truthy (getField h d "pageContent")) eqn:H1;
    [intros [= <-]; congruence|].
  destruct (truthy (getField h d "text")) eqn:H2;
    [intros [= <-]; congruence|].
  destruct (truthy (getField h d "content")) eqn:H3;
    [intros [= <-]; congruence|].
  destruct (truthy (getField h d "document")) eqn:H4;
    [intros [= <-]; congruence|].
  destruct (JSON_stringify h d) as [[s|]|e] eqn:Hs; simpl; [| |discriminate].
  - intros [= <-]. simpl. intros Hf.
    apply negb_false_iff, String.eqb_eq in Hf.
    unfold JSON_stringify in Hs. now apply serialize_nonempty in Hs.
  - intros [= <-] _. split; [reflexivity|].
    now apply JSON_stringify_undefined.
Qed.

(** X17.  The text extracted from a document is never an empty or
    otherwise falsy value, with one exception: it is a truthy field, or
    the serialisation, which is a non-empty string, and only for the
    [undefined] document is it [undefined]. *)
Theorem documentText_is_truthy h d v :
  documentText h d = Ok v ->
  truthy v = true
  \/ (v = VUndefined
      /\ (d = VUndefined \/ exists a, d = VRef a /\ nth_error h a = None)).
Proof.
  intros H. destruct (truthy v) eqn:Hv; [now left|right].
  exact (documentText_falsy h d v H Hv).
Qed.

Lemma documentText_is_truthy_witness :
  documentText demoHeap (VRef 2)
    = Ok (VStr ("{" ++ dq ++ "title" ++ dq ++ ":" ++ dq ++ "Growing tomatoes"
                ++ dq ++ "}"))
  /\ (truthy (VStr ("{" ++ dq ++ "title" ++ dq ++ ":" ++ dq
                    ++ "Growing tomatoes" ++ dq ++ "}")) = true
      \/ (VStr ("{" ++ dq ++ "title" ++ dq ++ ":" ++ dq ++ "Growing tomatoes"
                ++ dq ++ "}") = VUndefined
          /\ (VRef 2 = VUndefined
              \/ exists a, VRef 2 = VRef a /\ nth_error demoHeap a = None))).
Proof.
  assert (H : documentText demoHeap (VRef 2)
              = Ok (VStr ("{" ++ dq ++ "title" ++ dq ++ ":" ++ dq
                          ++ "Growing tomatoes" ++ dq ++ "}")))
    by (vm_compute; reflexivity).
  split; [exact H|].
  exact (documentText_is_truthy demoHeap (VRef 2) _ H).
Defined.

(** ** The provider node *)

Lemma nth_error_keep {A} (l ext : list A) n c :
  nth_error l n = Some c -> nth_error (l ++ ext) n = Some c.
Proof.
  intros H. rewrite nth_error_app1; [exact H|].
  apply nth_error_Some. congruence.
Qed.

Lemma nth_error_last {A} (l : list A) c ext :
  nth_error (l ++ c :: ext) (List.length l) = Some c.
Proof.
  rewrite nth_error_app2 by lia. now rewrite Nat.sub_diag.
Qed.

Lemma nth_error_second {A} (l : list A) c d :
  nth_error ((l ++ [c]) ++ [d]) (List.length (l ++ [c])) = Some d.
Proof. apply nth_error_last. Qed.

Lemma convertDoc_spec h i doc acc pd acc' :
  convertDoc h i doc acc = Ok (pd, acc') ->
  exists ext a text md,
    acc' = acc ++ ext
    /\ pd = VRef a
    /\ nth_error acc' a = Some (processedDoc text md i)
    /\ pageContentOf h doc = Ok text
    /\ truthy md = true.
Proof.
  unfold convertDoc, pageContentOf, alloc.
  destruct (isObject doc).
  - destruct (documentText h doc) as [text|e]; simpl; [|discriminate].
    destruct (truthy (getField h doc "metadata")) eqn:Hmd.
    + intros [= <- <-].
      exists [processedDoc text (getField h doc "metadata") i],
        (List.length acc), text, (getField h doc "metadata").
      split; [reflexivity|]. split; [reflexivity|].
      split; [apply nth_error_last|]. now split.
    + intros [= <- <-].
      exists [CObj []; processedDoc text (VRef (List.length acc)) i],
        (List.length (acc ++ [CObj []])), text, (VRef (List.length acc)).
      split; [now rewrite <- app_assoc|]. split; [reflexivity|].
      split; [apply nth_error_second|]. now split.
  - intros [= <- <-].
    exists [CObj []; processedDoc (VStr (stringOf doc)) (VRef (List.length acc)) i],
      (List.length (acc ++ [CObj []])), (VStr (stringOf doc)),
      (VRef (List.length acc)).
    split; [now rewrite <- app_assoc|]. split; [reflexivity|].
    split; [apply nth_error_second|]. now split.
Qed.

Lemma convertDocs_spec h docs : forall i acc pds acc',
  convertDocs h i docs acc = Ok (pds, acc') ->
  (exists ext, acc' = acc ++ ext) /\ converted h i docs pds acc'.
Proof.
  induction docs as [|doc rest IH]; simpl; intros i acc pds acc' H.
  - injection H as <- <-. split; [exists []; now rewrite app_nil_r|].
    split; [reflexivity|]. intros [|n] d; discriminate.
  - destruct (convertDoc h i doc acc) as [[pd acc1]|e] eqn:Hd; simpl in H;
      [|discriminate].
    destruct (convertDocs h (S i) rest acc1) as [[pds' acc2]|e] eqn:Hr;
      simpl in H; [|discriminate].
    injection H as <- <-.
    apply convertDoc_spec in Hd.
    destruct Hd as (ext1 & a & text & md & -> & -> & Ha & Htext & Hmd).
    destruct (IH _ _ _ _ Hr) as [[ext2 ->] [Hlen Hall]].
    split; [exists (ext1 ++ ext2); now rewrite app_assoc|].
    split; [simpl; now rewrite Hlen|].
    intros [|n] d Hn; simpl in Hn.
    + injection Hn as <-. exists a, text, md. simpl.
      rewrite Nat.add_0_r. repeat split; try assumption.
      now apply nth_error_keep.
    + destruct (Hall n d Hn) as (a' & text' & md' & H1 & H2 & H3 & H4).
      exists a', text', md'. simpl.
      replace (i + S n)%nat with (S i + n)%nat by lia. now repeat split.
Qed.

Lemma pageContentOf_truthy h doc text :
  regular h doc = true -> pageContentOf h doc = Ok text -> truthy text = true.
Proof.
  unfold pageContentOf. destruct doc as [| |[|]|n|s|a]; simpl;
    try (intros _ [= <-]; reflexivity).
  - intros _ [= <-]. simpl. apply negb_true_iff, String.eqb_neq.
    apply numberToString_nonempty.
  - intros H [= <-]. exact H.
  - intros H Ht. destruct (truthy text) eqn:Hv; [reflexivity|].
    destruct (documentText_falsy _ _ _ Ht Hv)
      as (_ & [Hd|(a' & [= <-] & Hnone)]); [discriminate Hd|].
    now rewrite Hnone in H.
Qed.

Lemma documentText_processed h' a text md k :
  nth_error h' a = Some (processedDoc text md k) ->
  truthy text = true ->
  documentText h' (VRef a) = Ok text.
Proof.
  intros Ha Ht. unfold documentText, getField. rewrite Ha.
  unfold processedDoc. simpl. now rewrite Ht.
Qed.

(** The texts the adapters extract from the processed documents are the
    page contents the conversion has put there. *)
Lemma converted_texts h docs : forall start pds h',
  converted h start docs pds h' ->
  Forall (fun d => regular h d = true) docs ->
  forall texts, rmap (pageContentOf h) docs = Ok texts ->
  documentTexts h' pds = Ok texts.
Proof.
  unfold documentTexts.
  induction docs as [|doc rest IH]; intros start pds h' [Hlen Hall] Hreg texts.
  - destruct pds; [|discriminate]. simpl. auto.
  - destruct pds as [|pd pds]; [discriminate|]. simpl.
    inversion Hreg as [|? ? Hd Hrest]; subst.
    destruct (pageContentOf h doc) as [text|] eqn:Ht; simpl; [|discriminate].
    destruct (rmap (pageContentOf h) rest) as [ts|] eqn:Hts; simpl;
      [|discriminate].
    intros [= <-].
    destruct (Hall 0%nat doc eq_refl) as (a & text' & md & Hpd & Ha & Ht' & _).
    simpl in Hpd. injection Hpd as ->. rewrite Ht in Ht'. injection Ht' as <-.
    rewrite (documentText_processed _ _ _ _ _ Ha
               (pageContentOf_truthy _ _ _ Hd Ht)). simpl.
    rewrite (IH (S start) pds h') with (texts := ts);
      [reflexivity| |assumption|reflexivity].
    split; [simpl in Hlen; lia|].
    intros n d Hn. destruct (Hall (S n) d Hn) as (a' & t' & md' & H1 & H2 & H3 & H4).
    exists a', t', md'. simpl in H1.
    replace (S start + n)%nat with (start + S n)%nat by lia. now repeat split.
Qed.

Lemma converted_ok h docs start pds h' :
  converted h start docs pds h' ->
  exists texts, rmap (pageContentOf h) docs = Ok texts.
Proof.
  intros [_ Hall]. 
  assert (H : forall d, In d docs -> exists t, pageContentOf h d = Ok t).
  { intros d Hin. apply In_nth_error in Hin. destruct Hin as [n Hn].
    destruct (Hall n d Hn) as (_ & t & _ & _ & _ & Ht & _). eauto. }
  clear Hall. induction docs as [|d rest IH]; simpl; [eauto|].
  destruct (H d (or_introl eq_refl)) as [t ->]. simpl.
  destruct IH as [ts ->]; [intros; apply H; now right|]. simpl. eauto.
Qed.

(** The requests of a call carry the texts of its documents. *)
Lemma requests_carry_texts a this h query docs topK threshold i inc w r w' :
  rerank a this h query docs topK threshold i inc w = (r, w') ->
  forall req, In req (requestsOf (newEffects w w')) ->
    exists texts,
      documentTexts h docs = Ok texts
      /\ wellBuilt a (getNodeParameter this i) query docs topK texts req.
Proof.
  intros H req Hin. apply rerank_kinds in H.
  destruct H as [(_ & _ & _ & ->)|(br & db & de & Hc & Hbr)].
  - rewrite (newEffects_app w w [] (eq_sym (app_nil_r _))) in Hin.
    destruct Hin.
  - destruct (course_requests _ _ _ _ _ _ _ _ _ _ _ _ _ _ _ _ Hc req Hin)
      as (texts & Ht & ->). exists texts. split; [exact Ht|apply Hbr].
Qed.

(** X18.  Whatever the provider sends, it sends one text per document
    it was given, in their order: for an object the text the flow node
    would extract from it, for any other value its [String] form, as it
    is and not JSON-quoted; [top_n] is the smaller of the [topN] of the
    call, or the [topK] of the node when the call has none, and the
    number of documents.  A blank query, an input without an array of
    documents and an empty array send nothing. *)
Theorem provider_sends_page_contents this h input w docs :
  in_documents input = MArray docs ->
  Forall (fun d => regular h d = true) docs ->
  forall req,
    In req (requestsOf
              (newEffects w (worldAfter (providerRerank this h input w)))) ->
    rmap (pageContentOf h) docs
      = Ok (map (fun d => snd (fst d)) (body_documents (body req)))
    /\ top_n (body req)
       = Z.min (match in_topN input with
                | Some n => n
                | None => p_topK (getNodeParameter this 0%nat)
                end)
               (Z.of_nat (List.length docs))
    /\ isBlank (in_query input) = false
    /\ docs <> [].
Proof.
  intros Hdocs Hreg req. unfold providerRerank. rewrite Hdocs.
  assert (Hnone : forall P : Prop, In req (requestsOf (newEffects w w)) -> P).
  { intros P Hin.
    rewrite (newEffects_app w w [] (eq_sym (app_nil_r _))) in Hin.
    destruct Hin. }
  destruct (String.eqb (in_query input) EmptyString || isBlank (in_query input))
    eqn:Hq; [apply Hnone|].
  destruct (Nat.eqb (List.length docs) 0) eqn:Hlen; [apply Hnone|].
  destruct (convertDocs h 0 docs h) as [[pds h']|e] eqn:Hconv; [|apply Hnone].
  apply convertDocs_spec in Hconv. destruct Hconv as [_ Hconv].
  destruct (converted_ok _ _ _ _ _ Hconv) as [texts Htexts].
  pose proof (converted_texts _ _ _ _ _ Hconv Hreg _ Htexts) as Hsent.
  assert (Hq' : isBlank (in_query input) = false).
  { apply orb_false_iff in Hq. now destruct Hq. }
  assert (Hd' : docs <> []).
  { intros ->. discriminate Hlen. }
  assert (Hgo : forall a r w',
    rerank a this h' (in_query input) pds
      (match in_topN input with
       | Some n => n
       | None => p_topK (getNodeParameter this 0%nat)
       end)
      (match in_threshold input with
       | Some t => t
       | None => p_threshold (getNodeParameter this 0%nat)
       end) 0%nat
      (p_includeOriginalScores (getNodeParameter this 0%nat)) w = (r, w') ->
    In req (requestsOf (newEffects w w')) ->
    rmap (pageContentOf h) docs
      = Ok (map (fun d => snd (fst d)) (body_documents (body req)))
    /\ top_n (body req)
       = Z.min (match in_topN input with
                | Some n => n
                | None => p_topK (getNodeParameter this 0%nat)
                end)
               (Z.of_nat (List.length docs))
    /\ isBlank (in_query input) = false
    /\ docs <> []).
  { intros a r w' Hrun Hin.
    destruct (requests_carry_texts _ _ _ _ _ _ _ _ _ _ _ _ Hrun req Hin)
      as (texts' & Ht' & _ & _ & _ & Hmid & Htop).
    rewrite Hsent in Ht'. injection Ht' as <-.
    rewrite Hmid, Htop. destruct Hconv as [-> _]. now repeat split. }
  destruct (String.eqb (p_service (getNodeParameter this 0%nat)) "cohere").
  - destruct (rerankWithCohere _ _ _ _ _ _ _ _ w) as [r w'] eqn:Hrun.
    intros Hin. apply (Hgo Cohere r w' Hrun). now destruct r.
  - destruct (rerankWithOpenAI _ _ _ _ _ _ _ _ w) as [r w'] eqn:Hrun.
    intros Hin. apply (Hgo OpenAITemplates r w' Hrun). now destruct r.
Qed.

Lemma provider_sends_page_contents_witness :
  let this := demoContext (demoParams false false) respondingNet in
  let input := providerInput (Some 2) in
  exists req,
    In req (requestsOf
              (newEffects startWorld
                 (worldAfter (providerRerank this demoHeap input startWorld))))
    /\ rmap (pageContentOf demoHeap) providerDocs
       = Ok [VStr "Neural networks learn representations";
             VStr "Artificial intelligence studies rational agents";
             VStr "Growing tomatoes"]
    /\ rmap (pageContentOf demoHeap) providerDocs
       = Ok (map (fun d => snd (fst d)) (body_documents (body req)))
    /\ top_n (body req) = Z.min 2 (Z.of_nat (List.length providerDocs))
    /\ isBlank (in_query input) = false
    /\ providerDocs <> [].
Proof.
  intros this input.
  destruct (requestsOf
              (newEffects startWorld
                 (worldAfter (providerRerank this demoHeap input startWorld))))
    as [|req rest] eqn:Hreqs; [vm_compute in Hreqs; discriminate Hreqs|].
  exists req. split; [now left|]. split; [vm_compute; reflexivity|].
  apply (provider_sends_page_contents this demoHeap input startWorld
           providerDocs eq_refl).
  - repeat constructor.
  - rewrite Hreqs. now left.
Defined.

Lemma serialize_primitive t fuel h stack fuel' h' stack' :
  isObject t = false ->
  serialize fuel h stack t = serialize fuel' h' stack' t.
Proof.
  destruct t as [| |[|]|n|s|a]; try discriminate;
    destruct fuel, fuel'; reflexivity.
Qed.

Lemma rmap_ext_in {A B} (f g : A -> result B) l :
  (forall x, In x l -> f x = g x) -> rmap f l = rmap g l.
Proof.
  induction l as [|x t IH]; simpl; intros H; [reflexivity|].
  rewrite (H x (or_introl eq_refl)).
  rewrite IH by (intros y Hy; apply H; now right). reflexivity.
Qed.

(** X19.  The provider and the flow node share cache entries: for
    documents that are objects whose texts are strings (or other
    primitives), the fingerprint of the processed documents the provider
    hands to the adapter is the fingerprint of the documents themselves,
    under which a flow call on them stores and finds its results. *)
Theorem provider_key_is_flow_key h docs pds h' texts query service model :
  convertDocs h 0 docs h = Ok (pds, h') ->
  Forall (fun d => isObject d = true /\ regular h d = true) docs ->
  documentTexts h docs = Ok texts ->
  Forall (fun t => isObject t = false) texts ->
  createCacheKey h' query pds service model
  = createCacheKey h query docs service model.
Proof.
  intros Hconv Hdocs Htexts Hprim.
  apply convertDocs_spec in Hconv. destruct Hconv as [_ Hconv].
  assert (Hpc : rmap (pageContentOf h) docs = Ok texts).
  { rewrite <- Htexts. unfold documentTexts. apply rmap_ext_in.
    intros d Hin. rewrite Forall_forall in Hdocs.
    unfold pageContentOf. now rewrite (proj1 (Hdocs d Hin)). }
  assert (Hreg : Forall (fun d => regular h d = true) docs).
  { revert Hdocs. apply Forall_impl. now intros d [_ H]. }
  unfold createCacheKey.
  rewrite (converted_texts _ _ _ _ _ Hconv Hreg _ Hpc), Htexts. simpl.
  unfold JSON_stringify_array, serElems.
  rewrite (rmap_ext_in
             (fun v => rbind (serialize (List.length h') h' [] v) _)
             (fun v => rbind (serialize (List.length h) h [] v)
                         (fun o => Ok match o with
                                      | Some s => s
                                      | None => "null"
                                      end))); [reflexivity|].
  intros t Hin. rewrite Forall_forall in Hprim.
  now rewrite (serialize_primitive t _ h' [] (List.length h) h []
                 (Hprim t Hin)).
Qed.

Lemma provider_key_is_flow_key_witness :
  let docs := [VRef 0%nat; VRef 1%nat] in
  exists pds h' texts,
    convertDocs demoHeap 0 docs demoHeap = Ok (pds, h')
    /\ documentTexts demoHeap docs = Ok texts
    /\ pds <> docs
    /\ createCacheKey h' demoQuery pds "cohere" "rerank-v3.5"
       = createCacheKey demoHeap demoQuery docs "cohere" "rerank-v3.5".
Proof.
  intros docs.
  destruct (convertDocs demoHeap 0 docs demoHeap) as [[pds h']|e] eqn:Hconv;
    [|vm_compute in Hconv; discriminate Hconv].
  exists pds, h',
    [VStr "Neural networks learn representations";
     VStr "Artificial intelligence studies rational agents"].
  assert (Htexts : documentTexts demoHeap docs
                   = Ok [VStr "Neural networks learn representations";
                         VStr "Artificial intelligence studies rational agents"])
    by (vm_compute; reflexivity).
  split; [reflexivity|]. split; [exact Htexts|]. split.
  - intros ->. vm_compute in Hconv. discriminate Hconv.
  - eapply provider_key_is_flow_key; [exact Hconv| |exact Htexts|].
    + repeat constructor.
    + repeat constructor.
Defined.

Lemma processed_fields h' pds n a text md k :
  nth_error pds n = Some (VRef a) ->
  nth_error h' a = Some (processedDoc text md k) ->
  forall r, index r = Z.of_nat n ->
    fields (scoredOf h' pds r) = [("pageContent", text); ("metadata", md)].
Proof.
  intros Hn Ha r Hr. unfold scoredOf, docAt, spread. simpl. rewrite Hr.
  destruct (Z.of_nat n <? 0) eqn:Hneg; [apply Z.ltb_lt in Hneg; lia|].
  rewrite Nat2Z.id. rewrite (nth_error_nth _ _ _ Hn), Ha. reflexivity.
Qed.

(** X20.  A result the adapter builds from the processed documents of
    the provider carries exactly two properties besides its score and
    index: [pageContent], the text of the document the entry of the
    response addresses, and [metadata], never a falsy value.  The
    [_originalIndex] the provider writes into a processed document does
    not reach the result.  Only an entry that addresses no document gives
    a result without properties, and only without
    [includeOriginalScores]. *)
Theorem provider_result_fields h docs pds h' rs threshold inc out :
  convertDocs h 0 docs h = Ok (pds, h') ->
  processRerankResults h' (RArray rs) pds threshold inc = Ok out ->
  Forall (fun s =>
    (exists doc text md,
       nth_error docs (Z.to_nat (_originalIndex s)) = Some doc
       /\ 0 <= _originalIndex s
       /\ pageContentOf h doc = Ok text
       /\ truthy md = true
       /\ fields s = [("pageContent", text); ("metadata", md)])
    \/ ((_originalIndex s < 0
         \/ Z.of_nat (List.length docs) <= _originalIndex s)
        /\ fields s = [] /\ inc = false)) out.
Proof.
  intros Hconv. apply convertDocs_spec in Hconv.
  destruct Hconv as [_ [Hlen Hall]].
  unfold processRerankResults.
  destruct (rmap _ _) as [mapped|] eqn:Hm; simpl; [|discriminate].
  intros [= <-].
  apply (Permutation_Forall (Permutation_sym (sortByScore_perm mapped))).
  apply (rmap_Forall _ _ _ _ Hm). intros r s _. rewrite toScored_scoredOf.
  destruct (inc && isNullish (docAt pds (index r))) eqn:Hthrow;
    [discriminate|].
  intros [= <-]. simpl.
  destruct (Z.ltb_spec (index r) 0) as [Hneg|Hpos].
  { right. split; [now left|]. unfold docAt in *.
    apply Z.ltb_lt in Hneg. rewrite Hneg in *. simpl in Hthrow.
    rewrite andb_true_r in Hthrow. now split. }
  destruct (nth_error docs (Z.to_nat (index r))) as [doc|] eqn:Hdoc.
  - left. destruct (Hall _ _ Hdoc) as (a & text & md & Hpd & Ha & Ht & Hmd).
    exists doc, text, md. repeat split; try assumption.
    apply (processed_fields h' pds (Z.to_nat (index r)) a text md _ Hpd Ha).
    now rewrite Z2Nat.id.
  - right. apply nth_error_None in Hdoc. split; [right; lia|].
    assert (Hund : docAt pds (index r) = VUndefined).
    { unfold docAt. apply Z.ltb_ge in Hpos. rewrite Hpos.
      apply nth_overflow. lia. }
    rewrite Hund in *. simpl in Hthrow. rewrite andb_true_r in Hthrow.
    now split.
Qed.

Lemma provider_result_fields_witness :
  let rs := [scoredEntry 2 (SNum (9 # 10)); scoredEntry 0 (SNum (2 # 10))] in
  exists pds h' out,
    convertDocs demoHeap 0 providerDocs demoHeap = Ok (pds, h')
    /\ processRerankResults h' (RArray rs) pds 0%Q true = Ok out
    /\ map (fun s => assoc "pageContent" (fields s)) out
       = [Some (VStr "Growing tomatoes");
          Some (VStr "Neural networks learn representations")]
    /\ Forall (fun s =>
         (exists doc text md,
            nth_error providerDocs (Z.to_nat (_originalIndex s)) = Some doc
            /\ 0 <= _originalIndex s
            /\ pageContentOf demoHeap doc = Ok text
            /\ truthy md = true
            /\ fields s = [("pageContent", text); ("metadata", md)])
         \/ ((_originalIndex s < 0
              \/ Z.of_nat (List.length providerDocs) <= _originalIndex s)
             /\ fields s = [] /\ true = false)) out.
Proof.
  intros rs.
  destruct (convertDocs demoHeap 0 providerDocs demoHeap) as [[pds h']|e]
    eqn:Hconv; [|vm_compute in Hconv; discriminate Hconv].
  destruct (processRerankResults h' (RArray rs) pds 0%Q true) as [out|e]
    eqn:Hout.
  - exists pds, h', out. split; [reflexivity|]. split; [exact Hout|]. split.
    + vm_compute in Hconv. injection Hconv as <- <-.
      vm_compute in Hout. injection Hout as <-. reflexivity.
    + exact (provider_result_fields demoHeap providerDocs pds h' rs 0%Q true
               out Hconv Hout).
  - vm_compute in Hconv. injection Hconv as <- <-.
    vm_compute in Hout. discriminate Hout.
Defined.
